(** * The dashboard client of AGENTIC_AI (frontend/scripts/app.js)

    A shallow embedding of the agent-execution client: the values the
    client receives from [res.json()], the artifact resolver
    [findOutputFile], the download-link computation of [renderResult], the
    submit handler with its option gathering, and the progress simulator
    driven by [setInterval].

    Conventions.
    - A JavaScript string is its sequence of UTF-16 code units, each an [N].
    - A JavaScript Number is [NaN] or a rational; every finite binary64 is a
      rational, and the program inspects numbers only through truthiness,
      [Math.min], [Math.floor] and [>=]. Rounding of binary64 arithmetic is
      not modelled.
    - An object is the list of its own enumerable properties in [for-in]
      order; an array is the list of its elements.
    - An abrupt completion (a thrown exception) is the [Throw] case of
      [completion]. *)

From Stdlib Require Import QArith Qround Qminmax Lqa.
From stdpp Require Import base option list gmap.
From Stdlib Require Import String Ascii.

Local Open Scope string_scope.
Local Open Scope N_scope.
Local Open Scope list_scope.

(** ** JavaScript values *)

Module JS.

(** A string is a list of UTF-16 code units. *)
Abbreviation jsstring := (list N).

(** An ASCII literal of the source as a code-unit sequence. *)
Definition lit (s : string) : jsstring :=
  List.map N_of_ascii (list_ascii_of_string s).

(** WhiteSpace and LineTerminator code points of ECMAScript: the
    characters that [String.prototype.trim] and [parseInt] strip. *)
Definition isWhiteSpace (c : N) : bool :=
  (c =? 9) || (c =? 10) || (c =? 11) || (c =? 12) || (c =? 13)
  || (c =? 32) || (c =? 160) || (c =? 5760)
  || ((8192 <=? c) && (c <=? 8202))
  || (c =? 8232) || (c =? 8233) || (c =? 8239) || (c =? 8287)
  || (c =? 12288) || (c =? 65279).

Fixpoint trimStart (s : jsstring) : jsstring :=
  match s with
  | [] => []
  | c :: rest => if isWhiteSpace c then trimStart rest else s
  end.

Definition trimEnd (s : jsstring) : jsstring :=
  rev (trimStart (rev s)).

(** [String.prototype.trim]. *)
Definition trim (s : jsstring) : jsstring := trimEnd (trimStart s).

(** Numbers. *)
Inductive number :=
| NaN
| Num (q : Q).

Definition ofZ (z : Z) : number := Num (inject_Z z).

Definition isInteger (n : number) : Prop := exists z : Z, n = ofZ z.

(** The value of a code unit as a digit, letters counting from 10. *)
Definition digitValue (c : N) : option N :=
  if (48 <=? c) && (c <=? 57) then Some (c - 48)
  else if (97 <=? c) && (c <=? 122) then Some (c - 97 + 10)
  else if (65 <=? c) && (c <=? 90) then Some (c - 65 + 10)
  else None.

Definition radixDigit (R c : N) : option N :=
  match digitValue c with
  | Some d => if d <? R then Some d else None
  | None => None
  end.

(** The digits of the longest prefix made of radix-[R] digits. *)
Fixpoint digitsPrefix (R : N) (s : jsstring) : list N :=
  match s with
  | [] => []
  | c :: rest =>
      match radixDigit R c with
      | Some d => d :: digitsPrefix R rest
      | None => []
      end
  end.

Definition mathInt (R : N) (ds : list N) : N :=
  fold_left (fun acc d => acc * R + d) ds 0.

(** [parseInt(string)] with the radix argument left out, as the client
    calls it: leading white space is skipped, a sign is read, a [0x] or
    [0X] prefix selects radix 16 (otherwise 10), and the longest prefix
    of digits is converted; no digit gives [NaN]. The result is the
    integer that was read; a Number is that integer up to 2^53 in
    magnitude and its rounding beyond. *)
Definition parseInt (s : jsstring) : number :=
  let S0 := trimStart s in
  let '(neg, S1) :=
    match S0 with
    | c :: rest =>
        if c =? 45 then (true, rest)
        else if c =? 43 then (false, rest)
        else (false, S0)
    | [] => (false, [])
    end in
  let '(R, S2) :=
    match S1 with
    | 48 :: x :: rest =>
        if (x =? 120) || (x =? 88) then (16, rest) else (10, S1)
    | _ => (10, S1)
    end in
  match digitsPrefix R S2 with
  | [] => NaN
  | ds =>
      let m := Z.of_N (mathInt R ds) in
      ofZ (if neg then (- m)%Z else m)
  end.

(** Values: what [JSON.parse] builds, plus [undefined] and [NaN]. *)
#[local] Unset Elimination Schemes.
Inductive value :=
| JUndefined
| JNull
| JBool (b : bool)
| JNumber (n : number)
| JString (s : jsstring)
| JArray (elems : list value)
| JObject (props : list (jsstring * value)).
#[local] Set Elimination Schemes.

(** The [typeof] operator. *)
Definition typeof (v : value) : jsstring :=
  match v with
  | JUndefined => lit "undefined"
  | JNull => lit "object"
  | JBool _ => lit "boolean"
  | JNumber _ => lit "number"
  | JString _ => lit "string"
  | JArray _ => lit "object"
  | JObject _ => lit "object"
  end.

(** ToBoolean: what [if (v)], [!v] and [v || w] test. *)
Definition truthy (v : value) : bool :=
  match v with
  | JUndefined => false
  | JNull => false
  | JBool b => b
  | JNumber NaN => false
  | JNumber (Num q) => negb (Qeq_bool q 0)
  | JString s => negb (bool_decide (s = []))
  | JArray _ => true
  | JObject _ => true
  end.

(** Exceptions carry what the client shows of them. *)
Inductive exn :=
| TypeError (culprit : value)
| Failure (message : jsstring).

Inductive completion (A : Type) :=
| Normal (a : A)
| Throw (e : exn).
Arguments Normal {A} a.
Arguments Throw {A} e.

#[export] Instance completion_ret : MRet completion := @Normal.
#[export] Instance completion_bind : MBind completion :=
  fun A B f c =>
    match c with
    | Normal a => f a
    | Throw e => Throw e
    end.

(** The first binding of [name] in a property list. *)
Fixpoint assoc (name : jsstring) (props : list (jsstring * value))
  : option value :=
  match props with
  | [] => None
  | (k, v) :: rest => if bool_decide (k = name) then Some v else assoc name rest
  end.

(** Reading a property [obj.name] where [name] is an identifier of the
    program ([pdf], [success], ...), none of which is an array index or a
    property of a built-in prototype: [null] and [undefined] throw a
    TypeError, an object answers its own property or [undefined], and
    every other value answers [undefined]. *)
Definition getNamed (obj : value) (name : jsstring) : completion value :=
  match obj with
  | JUndefined | JNull => Throw (TypeError obj)
  | JObject props => Normal (default JUndefined (assoc name props))
  | _ => Normal JUndefined
  end.

End JS.
Import JS.

(** ** The artifact resolver *)

Module Resolver.

Definition artifactKeys : list jsstring :=
  [lit "pdf"; lit "output_file"; lit "image_path"].

(** [findOutputFile(obj)], by recursion on the structure of [obj]. The
    two inner loops are the [for (const key in obj)] loop over an array
    and over an object; [obj[key]] is the element, respectively the
    value, enumerated with [key]. *)
Fixpoint findOutputFile (obj : value) : completion value :=
  if negb (truthy obj) || negb (bool_decide (typeof obj = lit "object"))
  then Normal JNull
  else
    pdf ← getNamed obj (lit "pdf");
    if truthy pdf then Normal pdf else
    output_file ← getNamed obj (lit "output_file");
    if truthy output_file then Normal output_file else
    image_path ← getNamed obj (lit "image_path");
    if truthy image_path then Normal image_path else
    match obj with
    | JArray elems =>
        (fix loop (l : list value) : completion value :=
           match l with
           | [] => Normal JNull
           | x :: rest =>
               found ← findOutputFile x;
               if truthy found then Normal found else loop rest
           end) elems
    | JObject props =>
        (fix loop (l : list (jsstring * value)) : completion value :=
           match l with
           | [] => Normal JNull
           | (_, x) :: rest =>
               found ← findOutputFile x;
               if truthy found then Normal found else loop rest
           end) props
    | _ => Normal JNull
    end.

End Resolver.
Import Resolver.

(** ** The structure the resolver walks *)

Module Traversal.

(** The values [for-in] hands to the recursive call, in order. *)
Definition children (v : value) : list value :=
  match v with
  | JArray elems => elems
  | JObject props => List.map snd props
  | _ => []
  end.

Definition firstTruthy (vs : list value) : option value :=
  List.find truthy vs.

(** What the three tests of a call return without descending: the first
    truthy value among [obj.pdf], [obj.output_file] and [obj.image_path]
    of an object, in that order; an array, which has none of the three
    properties, and a value that is not searched have none. *)
Definition localArtifact (v : value) : option value :=
  match v with
  | JObject props =>
      firstTruthy
        (List.map (fun k => default JUndefined (assoc k props)) artifactKeys)
  | _ => None
  end.

(** Every value of the structure, parents before their children and
    siblings in enumeration order. *)
Fixpoint preorder (v : value) : list value :=
  v :: match v with
       | JArray elems => List.flat_map preorder elems
       | JObject props =>
           List.flat_map (fun kv => let '(_, x) := kv in preorder x) props
       | _ => []
       end.

(** The local artifact of the first value of the list that has one,
    [null] when none has. *)
Fixpoint firstArtifact (nodes : list value) : value :=
  match nodes with
  | [] => JNull
  | n :: rest =>
      match localArtifact n with
      | Some file => file
      | None => firstArtifact rest
      end
  end.

(** The value is an object with an own property named [k]. *)
Definition ownsKey (k : jsstring) (v : value) : bool :=
  match v with
  | JObject props => bool_decide (is_Some (assoc k props))
  | _ => false
  end.

(** Some object of the structure, at any depth, owns [pdf],
    [output_file] or [image_path]. *)
Definition mentionsArtifactKey (v : value) : bool :=
  existsb (fun n => existsb (fun k => ownsKey k n) artifactKeys) (preorder v).

(** The value is a mapping (object) or a sequence (array). *)
Definition isContainer (v : value) : bool :=
  match v with
  | JArray _ | JObject _ => true
  | _ => false
  end.

(** The [for-in] loop of [findOutputFile] over the enumerated values. *)
Fixpoint search (vs : list value) : completion value :=
  match vs with
  | [] => Normal JNull
  | x :: rest =>
      found ← findOutputFile x;
      if truthy found then Normal found else search rest
  end.

(** Every object of the structure has pairwise distinct property names,
    as every JavaScript object has. *)
Fixpoint uniqueKeys (v : value) : bool :=
  match v with
  | JArray elems => forallb uniqueKeys elems
  | JObject props =>
      bool_decide (NoDup (List.map fst props))
      && forallb (fun kv => let '(_, x) := kv in uniqueKeys x) props
  | _ => true
  end.

Definition isArtifactKey (k : jsstring) : bool :=
  bool_decide (k ∈ artifactKeys).

(** Every artifact key the value owns is bound to a falsy value (the
    empty string, [0], [null], [false], ...); a value that owns none of
    them, an array and a scalar among them, qualifies. *)
Definition falsyArtifacts (m : value) : Prop :=
  match m with
  | JObject props =>
      forall k x, k ∈ artifactKeys -> assoc k props = Some x ->
                  truthy x = false
  | _ => True
  end.

(** The structure without the artifact keys that are bound to a falsy
    value, at every object of it. *)
Fixpoint prune (v : value) : value :=
  match v with
  | JArray elems => JArray (List.map prune elems)
  | JObject props =>
      JObject
        (List.flat_map
           (fun kv =>
              let '(k, x) := kv in
              if isArtifactKey k && negb (truthy x) then []
              else [(k, prune x)])
           props)
  | _ => v
  end.

Abbreviation pruneProps props :=
  (List.flat_map
     (fun kv : jsstring * value =>
        let '(k, x) := kv in
        if isArtifactKey k && negb (truthy x) then []
        else [(k, prune x)])
     props).

(** Two runs of the resolver that return a file and its pruned form. *)
Definition prunes (c c' : completion value) : Prop :=
  exists r, c = Normal r /\ c' = Normal (prune r).

(** Nesting depth. *)
Fixpoint height (v : value) : nat :=
  match v with
  | JArray elems => S (list_max (List.map height elems))
  | JObject props =>
      S (list_max (List.map (fun kv => let '(_, x) := kv in height x) props))
  | _ => 0%nat
  end.

End Traversal.
Import Traversal.

(** ** The resolver as the general recursion of the source *)

Module Bounded.

(** The [for-in] loop, given the function that runs the recursive call;
    [None] is a recursion that exceeded its budget. *)
Fixpoint forIn (call : value -> option (completion value))
    (vs : list value) : option (completion value) :=
  match vs with
  | [] => Some (Normal JNull)
  | x :: rest =>
      match call x with
      | None => None
      | Some (Throw e) => Some (Throw e)
      | Some (Normal found) =>
          if truthy found then Some (Normal found) else forIn call rest
      end
  end.

(** [findOutputFile] with a budget on the depth of nested calls. *)
Fixpoint findOutputFile_fuel (fuel : nat) (obj : value)
  : option (completion value) :=
  match fuel with
  | O => None
  | S fuel' =>
      if negb (truthy obj) || negb (bool_decide (typeof obj = lit "object"))
      then Some (Normal JNull)
      else
        match getNamed obj (lit "pdf") with
        | Throw e => Some (Throw e)
        | Normal pdf =>
        if truthy pdf then Some (Normal pdf) else
        match getNamed obj (lit "output_file") with
        | Throw e => Some (Throw e)
        | Normal output_file =>
        if truthy output_file then Some (Normal output_file) else
        match getNamed obj (lit "image_path") with
        | Throw e => Some (Throw e)
        | Normal image_path =>
        if truthy image_path then Some (Normal image_path) else
        forIn (findOutputFile_fuel fuel') (children obj)
        end end end
  end.

End Bounded.
Import Bounded.

(** ** The download link of [renderResult] *)

Module Download.

(** The character class of the regular expression [/[/\\]/]. *)
Definition isSeparator (c : N) : bool := (c =? 47) || (c =? 92).

(** [file.split(/[/\\]/)]: the pieces between separators; never empty. *)
Fixpoint split (s : jsstring) : list jsstring :=
  match s with
  | [] => [[]]
  | c :: rest =>
      if isSeparator c then [] :: split rest
      else match split rest with
           | seg :: segs => (c :: seg) :: segs
           | [] => [[c]]
           end
  end.

(** [Array.prototype.pop]: the last element, [undefined] on []. *)
Definition pop (segments : list jsstring) : option jsstring := last segments.

(** [file.split(/[/\\]/).pop()] as the template literal prints it. *)
Definition fileName (file : jsstring) : jsstring :=
  default (lit "undefined") (pop (split file)).

Definition fileUrl (name : jsstring) : jsstring := lit "/files/" ++ name.

End Download.
Import Download.

(** ** The page and its handlers *)

Module Ui.

(** *** Option definitions and form controls *)

Record optionDef := {
  opt_name : jsstring;
  opt_label : jsstring;
  opt_type : jsstring;
  opt_options : list jsstring;
  opt_default : jsstring
}.

Definition number_opt (name label : string) (dflt : string) : optionDef :=
  {| opt_name := lit name; opt_label := lit label; opt_type := lit "number";
     opt_options := []; opt_default := lit dflt |}.
Definition text_opt (name label : string) (dflt : string) : optionDef :=
  {| opt_name := lit name; opt_label := lit label; opt_type := lit "text";
     opt_options := []; opt_default := lit dflt |}.
Definition select_opt (name label : string) (choices : list string)
    (dflt : string) : optionDef :=
  {| opt_name := lit name; opt_label := lit label; opt_type := lit "select";
     opt_options := List.map lit choices; opt_default := lit dflt |}.

(** The table [AGENT_OPTIONS] of [renderOptions]; a default is written
    as the text the template literal prints. *)
Definition AGENT_OPTIONS : list (jsstring * list optionDef) :=
  [ (lit "presentation_gen", [number_opt "num_slides" "Slides" "5"]);
    (lit "quiz_gen",
      [select_opt "difficulty" "Difficulty" ["easy"; "medium"; "hard"] "medium"]);
    (lit "student_gen",
      [select_opt "command" "Task"
         ["notes"; "roadmap"; "quiz"; "dsa"; "debug"; "interview"] "notes"]);
    (lit "nexus",
      [select_opt "module" "Module" ["codex"; "sherlock"; "aria"; "atlas"] "codex";
       select_opt "command" "Action" ["review"; "debug"; "research"; "design"]
         "review"]);
    (lit "quanta",
      [select_opt "module" "Domain" ["quantum"; "medica"] "quantum";
       select_opt "command" "Analysis" ["algorithm"; "hardware"; "interactions"]
         "algorithm"]);
    (lit "resume_opt",
      [text_opt "job_description" "Job Description (Optional)" ""]);
    (lit "debate_coach", [text_opt "user_argument" "Your Argument" ""]);
    (lit "travel_plan",
      [text_opt "duration" "Duration" "3 days";
       select_opt "budget" "Budget" ["Low"; "Medium"; "High"; "Luxury"] "Medium";
       text_opt "interests" "Interests" "Sightseeing, Food, History"]) ].

Fixpoint optionsOf (id : jsstring) (table : list (jsstring * list optionDef))
  : list optionDef :=
  match table with
  | [] => []
  | (k, defs) :: rest => if bool_decide (k = id) then defs else optionsOf id rest
  end.

(** A control of the options container as the handler reads it:
    [el.name], [el.type] and [el.value]. *)
Record element := {
  el_name : jsstring;
  el_type : jsstring;
  el_value : jsstring
}.

(** The control [renderOptions] writes for one definition: a [select]
    (whose [type] reads [select-one]) showing the default when it is one
    of the choices and the first choice otherwise, or an [input] of the
    declared type holding the default. *)
Definition controlOf (opt : optionDef) : element :=
  if bool_decide (opt_type opt = lit "select") then
    {| el_name := opt_name opt;
       el_type := lit "select-one";
       el_value :=
         if bool_decide (opt_default opt ∈ opt_options opt)
         then opt_default opt
         else default [] (head (opt_options opt)) |}
  else
    {| el_name := opt_name opt;
       el_type := opt_type opt;
       el_value := opt_default opt |}.

(** [AGENT_OPTIONS[id] || []] mapped to controls, for an [id] that names
    no member the table inherits from [Object.prototype]. *)
Definition renderOptions (id : jsstring) : list element :=
  List.map controlOf (optionsOf id AGENT_OPTIONS).

(** The members an object literal inherits from [Object.prototype]. For
    such an [id] the lookup [AGENT_OPTIONS[id]] finds a function (the
    prototype itself for [__proto__]), a truthy value without [map]. *)
Definition inheritedNames : list jsstring :=
  [lit "constructor"; lit "toString"; lit "toLocaleString"; lit "valueOf";
   lit "hasOwnProperty"; lit "isPrototypeOf"; lit "propertyIsEnumerable";
   lit "__proto__"; lit "__defineGetter__"; lit "__defineSetter__";
   lit "__lookupGetter__"; lit "__lookupSetter__"].

(** The call [renderOptions(id)]: for an inherited name [options.map] is
    [undefined] and calling it throws before the container is written. *)
Definition renderOptionsCall (id : jsstring) : completion (list element) :=
  if bool_decide (id ∈ inheritedNames) then Throw (TypeError JUndefined)
  else Normal (renderOptions id).

(** *** The page *)

Inductive task :=
| ProgressTick (width : Q)
| ForgetAgent
| Nothing.

Inductive label := ExecuteAgent | Processing.

Inductive errorText :=
| Detail (v : value)
| Caught (e : exn).

Inductive shown :=
| Blank
| ResultView (pdfBanner : bool) (result : value)
| ErrorBox (msg : errorText).

(** The object [state]. *)
Record appState := {
  agents : list value;
  currentAgent : value;
  progressInterval : option nat
}.

(** Timers of the window ([setInterval] and [setTimeout] draw their
    handles from one counter) and requests awaiting their response. *)
Record scheduler := {
  timers : gmap nat task;
  nextHandle : nat;
  inFlight : nat
}.

Record formView := {
  topicValue : jsstring;
  topicFocused : bool;
  optionEls : list element;
  submitDisabled : bool;
  submitLabel : label
}.

Record progressView := {
  containerShown : bool;
  statusText : jsstring;
  barWidth : Q;
  detailText : jsstring
}.

Record resultView := {
  areaShown : bool;
  display : shown;
  href : jsstring;
  download : jsstring;
  downloadShown : bool
}.

(** The elements every handler reaches through [elements] are taken to
    be present in the page. Texts that no handler reads back (the title,
    the icon and the placeholder of the modal) are left out. *)
Record ui := {
  app : appState;
  sched : scheduler;
  modalActive : bool;
  form : formView;
  progress : progressView;
  result : resultView
}.

Definition with_app (f : appState -> appState) (st : ui) : ui :=
  {| app := f (app st); sched := sched st; modalActive := modalActive st;
     form := form st; progress := progress st; result := result st |}.
Definition with_sched (f : scheduler -> scheduler) (st : ui) : ui :=
  {| app := app st; sched := f (sched st); modalActive := modalActive st;
     form := form st; progress := progress st; result := result st |}.
Definition with_modal (b : bool) (st : ui) : ui :=
  {| app := app st; sched := sched st; modalActive := b;
     form := form st; progress := progress st; result := result st |}.
Definition with_form (f : formView -> formView) (st : ui) : ui :=
  {| app := app st; sched := sched st; modalActive := modalActive st;
     form := f (form st); progress := progress st; result := result st |}.
Definition with_progress (f : progressView -> progressView) (st : ui) : ui :=
  {| app := app st; sched := sched st; modalActive := modalActive st;
     form := form st; progress := f (progress st); result := result st |}.
Definition with_result (f : resultView -> resultView) (st : ui) : ui :=
  {| app := app st; sched := sched st; modalActive := modalActive st;
     form := form st; progress := progress st; result := f (result st) |}.

Definition setCurrentAgent (a : value) : ui -> ui :=
  with_app (fun s =>
    {| agents := agents s; currentAgent := a;
       progressInterval := progressInterval s |}).
Definition setProgressInterval (h : option nat) : ui -> ui :=
  with_app (fun s =>
    {| agents := agents s; currentAgent := currentAgent s;
       progressInterval := h |}).

Definition setSubmit (disabled : bool) (l : label) : ui -> ui :=
  with_form (fun f =>
    {| topicValue := topicValue f; topicFocused := topicFocused f;
       optionEls := optionEls f; submitDisabled := disabled;
       submitLabel := l |}).
Definition focusTopic : ui -> ui :=
  with_form (fun f =>
    {| topicValue := topicValue f; topicFocused := true;
       optionEls := optionEls f; submitDisabled := submitDisabled f;
       submitLabel := submitLabel f |}).
Definition setTopic (s : jsstring) : ui -> ui :=
  with_form (fun f =>
    {| topicValue := s; topicFocused := topicFocused f;
       optionEls := optionEls f; submitDisabled := submitDisabled f;
       submitLabel := submitLabel f |}).
Definition setOptionEls (els : list element) : ui -> ui :=
  with_form (fun f =>
    {| topicValue := topicValue f; topicFocused := topicFocused f;
       optionEls := els; submitDisabled := submitDisabled f;
       submitLabel := submitLabel f |}).

Definition setProgressShown (b : bool) : ui -> ui :=
  with_progress (fun p =>
    {| containerShown := b; statusText := statusText p;
       barWidth := barWidth p; detailText := detailText p |}).
Definition setStatus (s : jsstring) : ui -> ui :=
  with_progress (fun p =>
    {| containerShown := containerShown p; statusText := s;
       barWidth := barWidth p; detailText := detailText p |}).
Definition setBar (w : Q) : ui -> ui :=
  with_progress (fun p =>
    {| containerShown := containerShown p; statusText := statusText p;
       barWidth := w; detailText := detailText p |}).
Definition setDetail (s : jsstring) : ui -> ui :=
  with_progress (fun p =>
    {| containerShown := containerShown p; statusText := statusText p;
       barWidth := barWidth p; detailText := s |}).

Definition setResultShown (b : bool) : ui -> ui :=
  with_result (fun r =>
    {| areaShown := b; display := display r; href := href r;
       download := download r; downloadShown := downloadShown r |}).
Definition setDisplay (d : shown) : ui -> ui :=
  with_result (fun r =>
    {| areaShown := areaShown r; display := d; href := href r;
       download := download r; downloadShown := downloadShown r |}).
Definition offerDownload (name : jsstring) : ui -> ui :=
  with_result (fun r =>
    {| areaShown := areaShown r; display := display r;
       href := fileUrl name; download := name; downloadShown := true |}).
Definition hideDownload : ui -> ui :=
  with_result (fun r =>
    {| areaShown := areaShown r; display := display r; href := href r;
       download := download r; downloadShown := false |}).

(** *** Timers *)

(** [setInterval] and [setTimeout]: a fresh handle bound to the task. *)
Definition setTimer (t : task) (st : ui) : nat * ui :=
  let h := nextHandle (sched st) in
  (h, with_sched (fun s =>
        {| timers := <[h := t]> (timers s); nextHandle := S h;
           inFlight := inFlight s |}) st).

(** [clearInterval(handle)]; [null] and stale handles clear nothing. *)
Definition clearInterval (handle : option nat) (st : ui) : ui :=
  match handle with
  | None => st
  | Some h =>
      with_sched (fun s =>
        {| timers := delete h (timers s); nextHandle := nextHandle s;
           inFlight := inFlight s |}) st
  end.

Definition remember (h : nat) (t : task) : ui -> ui :=
  with_sched (fun s =>
    {| timers := alter (fun _ => t) h (timers s);
       nextHandle := nextHandle s; inFlight := inFlight s |}).

Definition setInFlight (n : nat) : ui -> ui :=
  with_sched (fun s =>
    {| timers := timers s; nextHandle := nextHandle s; inFlight := n |}).

Definition running (h : nat) (st : ui) : bool :=
  bool_decide (is_Some (timers (sched st) !! h)).

End Ui.
Import Ui.

Module Handlers.

(** *** Opening and closing the modal *)

(** [formatName(str)]: [''] for a falsy argument, [str.replace(...)]
    otherwise, which throws when [str] is not a string. The text it
    builds is not kept. *)
Definition formatName (str : value) : completion unit :=
  if negb (truthy str) then Normal tt
  else match str with
       | JString _ => Normal tt
       | _ => Throw (TypeError str)
       end.

(** [v === id] for a string [id]. *)
Definition strictEq (v : value) (id : jsstring) : bool :=
  match v with
  | JString s => bool_decide (s = id)
  | _ => false
  end.

(** [state.agents.find(a => a.id === id)]. *)
Fixpoint findAgent (id : jsstring) (l : list value)
  : completion (option value) :=
  match l with
  | [] => Normal None
  | a :: rest =>
      aid ← getNamed a (lit "id");
      if strictEq aid id then Normal (Some a) else findAgent id rest
  end.

Definition openAgent (id : jsstring) (st : ui) : ui * completion unit :=
  match findAgent id (agents (app st)) with
  | Throw e => (st, Throw e)
  | Normal None => (st, Normal tt)
  | Normal (Some agent) =>
      let st := setCurrentAgent agent st in
      match name ← getNamed agent (lit "name"); formatName name with
      | Throw e => (st, Throw e)
      | Normal _ =>
          let st := setTopic [] st in
          match renderOptionsCall id with
          | Throw e => (st, Throw e)
          | Normal els =>
              let st := setOptionEls els st in
              let st := setResultShown false st in
              let st := setProgressShown false st in
              let st := setSubmit false ExecuteAgent st in
              (with_modal true st, Normal tt)
          end
      end
  end.

(** [closeAgent]: the overlay loses [active] and a timeout is set that
    forgets the current agent 300 ms later. *)
Definition closeAgent (st : ui) : ui :=
  snd (setTimer ForgetAgent (with_modal false st)).

(** *** The progress simulator *)

Definition startProgress (st : ui) : ui :=
  let st := setProgressShown true st in
  let st := setResultShown false st in
  let st := setStatus (lit "Initializing Agents...") st in
  let st := setBar 0 st in
  let '(interval, st) := setTimer (ProgressTick 0) st in
  setProgressInterval (Some interval) st.

Definition steps : list jsstring :=
  [lit "Analyzing intent..."; lit "Loading external tools...";
   lit "Generating solution..."; lit "Formatting output..."].

(** [steps[Math.floor((width / 100) * steps.length)] || 'Processing...']. *)
Definition phaseLabel (width : Q) : jsstring :=
  let i := Qfloor (width / 100 * 4) in
  if (i <? 0)%Z then lit "Processing..."
  else default (lit "Processing...") (steps !! Z.to_nat i).

(** One run of the interval callback of handle [interval], whose
    variable [width] holds [width], with [random] the value drawn from
    [Math.random()]. The new width is the exact sum; the code holds its
    rounding. *)
Definition progressTick (interval : nat) (width random : Q) (st : ui) : ui :=
  let st := if Qle_bool 90 width then clearInterval (Some interval) st
            else st in
  let width := (width + random * 10)%Q in
  let st := setBar (Qmin width 90) st in
  let st := setDetail (phaseLabel width) st in
  remember interval (ProgressTick width) st.

Definition stopProgress (st : ui) : ui :=
  let st := clearInterval (progressInterval (app st)) st in
  let st := setBar 100 st in
  let st := setDetail (lit "Complete") st in
  snd (setTimer Nothing st).

(** A timer of the window fires. *)
Definition fire (h : nat) (random : Q) (st : ui) : ui :=
  match timers (sched st) !! h with
  | None => st
  | Some (ProgressTick width) => progressTick h width random st
  | Some ForgetAgent => setCurrentAgent JNull (clearInterval (Some h) st)
  | Some Nothing => clearInterval (Some h) st
  end.

(** *** Rendering *)

Definition showError (msg : errorText) (st : ui) : ui :=
  setResultShown true (setDisplay (ErrorBox msg) st).

(** [renderResult(id, result)]; what was written to the page before an
    exception stays written. *)
Definition renderResult (result : value) (st : ui) : ui * completion unit :=
  match getNamed result (lit "pdf") with
  | Throw e => (st, Throw e)
  | Normal pdf =>
      let st := setDisplay (ResultView (truthy pdf) result) st in
      match findOutputFile result with
      | Throw e => (st, Throw e)
      | Normal file =>
          if truthy file then
            match file with
            | JString path =>
                let name := fileName path in
                (setResultShown true (offerDownload name st), Normal tt)
            | _ => (st, Throw (TypeError file))
            end
          else (setResultShown true (hideDownload st), Normal tt)
      end
  end.

(** *** Submitting *)

(** [el.type === 'number' ? parseInt(el.value) : el.value]. *)
Definition coerce (el : element) : value :=
  if bool_decide (el_type el = lit "number")
  then JNumber (parseInt (el_value el))
  else JString (el_value el).

(** The [forEach] that fills [options]. *)
Definition gatherOptions (els : list element) : gmap jsstring value :=
  fold_left (fun options el => <[el_name el := coerce el]> options) els ∅.

(** The object handed to [JSON.stringify] as the body of the request. *)
Record request := {
  req_agent : value;
  req_topic : jsstring;
  req_options : gmap jsstring value
}.

(** The handler of the submit button up to its first [await]: the new
    page, and the request passed to [fetch] if one is. *)
Definition onSubmitClick (st : ui) : ui * option request :=
  if negb (truthy (currentAgent (app st))) then (st, None) else
  let topic := trim (topicValue (form st)) in
  if negb (truthy (JString topic)) then (focusTopic st, None) else
  let options := gatherOptions (optionEls (form st)) in
  let st := setSubmit true Processing st in
  match getNamed (currentAgent (app st)) (lit "id") with
  | Throw e => (st, None)
  | Normal id =>
      let st := startProgress st in
      (setInFlight (S (inFlight (sched st))) st,
       Some {| req_agent := id; req_topic := topic; req_options := options |})
  end.

(** How the awaited call ends: [res.json()] yields [data], or [fetch] or
    [res.json()] rejects. *)
Inductive outcome :=
| Responded (data : value)
| Rejected (e : exn).

(** The body of [try] after the awaits. *)
Definition tryBody (o : outcome) (st : ui) : ui * completion unit :=
  match o with
  | Rejected e => (st, Throw e)
  | Responded data =>
      match getNamed data (lit "success") with
      | Throw e => (st, Throw e)
      | Normal success =>
          if truthy success then
            match id ← getNamed (currentAgent (app st)) (lit "id");
                  getNamed data (lit "result") with
            | Throw e => (st, Throw e)
            | Normal result => renderResult result st
            end
          else
            match getNamed data (lit "detail") with
            | Throw e => (st, Throw e)
            | Normal detail =>
                let msg := if truthy detail then detail
                           else JString (lit "Execution failed") in
                (showError (Detail msg) st, Normal tt)
            end
      end
  end.

(** The rest of the handler once the call has ended: [try], [catch]
    and [finally]. *)
Definition onSettled (o : outcome) (st : ui) : ui :=
  let '(st, c) := tryBody o st in
  let st := match c with
            | Normal _ => st
            | Throw e => showError (Caught e) st
            end in
  let st := setSubmit false ExecuteAgent st in
  stopProgress st.

(** *** Runs of the page *)

Inductive event :=
| Open (id : jsstring)
| Close
| TypeTopic (s : jsstring)
| EditOption (i : nat) (s : jsstring)
| Click
| Fire (h : nat) (random : Q)
| Settle (o : outcome).

(** The user sets the text of the control at position [i]. A browser
    keeps the value of a number field empty or a floating-point literal
    and the value of a select among its choices; any text is allowed
    here. *)
Definition editOption (i : nat) (s : jsstring) (st : ui) : ui :=
  setOptionEls
    (alter (fun el => {| el_name := el_name el; el_type := el_type el;
                         el_value := s |}) i (optionEls (form st))) st.

(** A disabled button receives no click; a response needs a request in
    flight. *)
Definition step (st : ui) (ev : event) : ui :=
  match ev with
  | Open id => fst (openAgent id st)
  | Close => closeAgent st
  | TypeTopic s => setTopic s st
  | EditOption i s => editOption i s st
  | Click => if submitDisabled (form st) then st else fst (onSubmitClick st)
  | Fire h random => fire h random st
  | Settle o =>
      match inFlight (sched st) with
      | O => st
      | S n => onSettled o (setInFlight n st)
      end
  end.

Definition run (evs : list event) (st : ui) : ui := fold_left step evs st.

(** Events that neither submit nor deliver a response. *)
Definition quiet (ev : event) : bool :=
  match ev with
  | Click | Settle _ => false
  | _ => true
  end.

(** The simulator of the request in flight is the one [state] knows:
    [state.progressInterval] holds the handle [h], which is one the
    window has handed out. *)
Definition armed (h : nat) (st : ui) : Prop :=
  progressInterval (app st) = Some h
  /\ (h < nextHandle (sched st))%nat
  /\ inFlight (sched st) <> 0%nat.


(** The page once [fetchAgents] has stored the agents. *)
Definition loaded (agents : list value) : ui :=
  {| app := {| agents := agents; currentAgent := JNull;
               progressInterval := None |};
     sched := {| timers := ∅; nextHandle := 1; inFlight := 0 |};
     modalActive := false;
     form := {| topicValue := []; topicFocused := false; optionEls := [];
                submitDisabled := false; submitLabel := ExecuteAgent |};
     progress := {| containerShown := false; statusText := [];
                    barWidth := 0; detailText := [] |};
     result := {| areaShown := false; display := Blank; href := [];
                  download := []; downloadShown := false |} |}.

End Handlers.
Import Handlers.

(** ** Sample inputs *)

Module Samples.

Definition str (s : string) : value := JString (lit s).

(** The result of the quiz agent: [{questions: [...], pdf: "quiz_123.pdf"}]. *)
Definition quizResult : value :=
  JObject [(lit "questions", JArray [str "q1"; str "q2"]);
           (lit "pdf", str "quiz_123.pdf")].

(** [{pdf: "out/r.pdf", output_file: "o.txt", extra: {image_path: "i.png"}}]. *)
Definition reportNode : value :=
  JObject [(lit "pdf", str "out/r.pdf");
           (lit "output_file", str "o.txt");
           (lit "extra", JObject [(lit "image_path", str "i.png")])].

(** [{meta: {pages: 3}, report: reportNode}]. *)
Definition nestedReport : value :=
  JObject [(lit "meta", JObject [(lit "pages", JNumber (ofZ 3))]);
           (lit "report", reportNode)].

(** [{output_file: "a.txt", nested: {pdf: "b.pdf"}}]. *)
Definition shadowedPdf : value :=
  JObject [(lit "output_file", str "a.txt");
           (lit "nested", JObject [(lit "pdf", str "b.pdf")])].

(** [{pdf: "", image_path: "c.png"}]. *)
Definition emptyPdf : value :=
  JObject [(lit "pdf", str ""); (lit "image_path", str "c.png")].

(** [{summary: "ok", items: [1, {title: "x"}]}]. *)
Definition plainResult : value :=
  JObject [(lit "summary", str "ok");
           (lit "items",
             JArray [JNumber (ofZ 1); JObject [(lit "title", str "x")]])].

(** [{pdf: "", output_file: 0, image_path: null,
      data: {pdf: false, output_file: "real.txt"}}]. *)
Definition falsyKeys : value :=
  JObject [(lit "pdf", str "");
           (lit "output_file", JNumber (ofZ 0));
           (lit "image_path", JNull);
           (lit "data", JObject [(lit "pdf", JBool false);
                                 (lit "output_file", str "real.txt")])].

Definition presentationAgent : value :=
  JObject [(lit "id", str "presentation_gen");
           (lit "name", str "presentation_gen");
           (lit "description", str "PowerPoint presentations")].

(** The modal of the presentation agent, a topic typed. *)
Definition readyToSubmit : ui :=
  run [Open (lit "presentation_gen"); TypeTopic (lit "AI in 2026")]
      (loaded [presentationAgent]).

(** The same with the number field emptied. *)
Definition emptiedNumber : ui := run [EditOption 0 []] readyToSubmit.

(** The page while the request of [readyToSubmit] is in flight. *)
Definition submitted : ui := run [Click] readyToSubmit.

(** The modal with a topic of a space, a tab, a no-break space and a
    line feed. *)
Definition blankTopic : ui :=
  run [Open (lit "presentation_gen"); TypeTopic [32; 9; 160; 10]]
      (loaded [presentationAgent]).

(** [{success: true, result: {pdf: "C:\\out/quiz/quiz_123.pdf"}}] as the
    server would answer with a path of its own file system. *)
Definition serverPath : jsstring := lit "C:\out/quiz/quiz_123.pdf".
Definition pathResult : value := JObject [(lit "pdf", JString serverPath)].

End Samples.
Import Samples.

(** ** Texts the page prints *)

Module Text.

(** The class [\w] of a regular expression without flags. *)
Definition isWordChar (c : N) : bool :=
  ((48 <=? c) && (c <=? 57)) || ((65 <=? c) && (c <=? 90))
  || ((97 <=? c) && (c <=? 122)) || (c =? 95).

(** [c.toUpperCase()] of a one-character match of [\w]: a lower-case
    ASCII letter becomes its capital, a capital, a digit and [_] stay. *)
Definition toUpperCase (c : N) : N :=
  if (97 <=? c) && (c <=? 122) then c - 32 else c.

(** [str.replace(/_/g, ' ')]. *)
Definition underscoresToSpaces (s : jsstring) : jsstring :=
  List.map (fun c => if c =? 95 then 32 else c) s.

(** [.replace(/\b\w/g, c => c.toUpperCase())]: a word character is
    matched when it starts the string or follows a character that is not
    one; [afterWord] tells whether the preceding character is one. *)
Fixpoint capitalizeWords (afterWord : bool) (s : jsstring) : jsstring :=
  match s with
  | [] => []
  | c :: rest =>
      (if isWordChar c && negb afterWord then toUpperCase c else c)
        :: capitalizeWords (isWordChar c) rest
  end.

(** [formatName(str)] with the text it returns. *)
Definition formatNameText (str : value) : completion jsstring :=
  if negb (truthy str) then Normal []
  else match str with
       | JString s => Normal (capitalizeWords false (underscoresToSpaces s))
       | _ => Throw (TypeError str)
       end.

(** The decimal digits of [n], the most significant first; [fuel] bounds
    their number. *)
Fixpoint digitsOf (fuel : nat) (n : N) : list N :=
  match fuel with
  | O => []
  | S fuel' =>
      if n <? 10 then [n] else digitsOf fuel' (n / 10) ++ [n mod 10]
  end.

(** What a template literal prints for a Number that is a natural up to
    2^53, such as the default [5] of an option: its decimal digits. Such a
    natural is a Number exactly; above 2^53 a Number is printed with the
    digits of its rounding, and from 10^21 in exponent form, which this
    function does not follow. *)
Definition toDecimal (n : N) : jsstring :=
  List.map (fun d => d + 48) (digitsOf (S (N.to_nat (N.log2 n))) n).

(** The text has a character that [trim] keeps. *)
Definition nonBlank (s : jsstring) : bool :=
  existsb (fun c => negb (isWhiteSpace c)) s.

End Text.
Import Text.

Module TextTails.

(** What may follow the digits of a numeral for [parseInt] to stop
    there: nothing, or a character that is neither a decimal digit nor the
    [x] or [X] of a hexadecimal prefix. *)
Definition endsNumeral (rest : jsstring) : bool :=
  match rest with
  | [] => true
  | c :: _ =>
      negb (bool_decide (is_Some (radixDigit 10 c)))
      && negb (c =? 120) && negb (c =? 88)
  end.

End TextTails.
Import TextTails.

(** ** More sample inputs *)

Module MoreSamples.

(** The three controls of the travel planner as [renderOptions] writes
    them. *)
Definition travelControls : list element := renderOptions (lit "travel_plan").

(** [{data: [{note: "n"}, {output_file: "out/plan.md"}]}]. *)
Definition wrappedResult : value :=
  JObject [(lit "data",
             JArray [JObject [(lit "note", str "n")];
                     JObject [(lit "output_file", str "out/plan.md")]])].

End MoreSamples.
Import MoreSamples.

(** ** What holds of the page along its runs *)

Module Conditions.

(** The conditions under which the handler shows the result [r] of a
    response: the response reports success, an agent is still current,
    the result can be read ([null] and [undefined] cannot), and the file
    the resolver finds in it is absent (falsy) or a string. *)
Definition rendersResult (o : outcome) (st : ui) (r : value) : Prop :=
  exists data success id pdf file,
    o = Responded data
    /\ getNamed data (lit "success") = Normal success
    /\ truthy success = true
    /\ getNamed (currentAgent (app st)) (lit "id") = Normal id
    /\ getNamed data (lit "result") = Normal r
    /\ getNamed r (lit "pdf") = Normal pdf
    /\ findOutputFile r = Normal file
    /\ (truthy file = false \/ exists path, file = JString path).

(** An entry of [state.agents] whose [id] can be read and is not [id]. *)
Definition otherAgent (id : jsstring) (a : value) : Prop :=
  exists x, getNamed a (lit "id") = Normal x /\ strictEq x id = false.

(** Handles in use, and the handle [state] remembers, are handles the
    window has handed out. *)
Definition freshHandles (st : ui) : Prop :=
  (forall h, is_Some (timers (sched st) !! h) ->
             (h < nextHandle (sched st))%nat)
  /\ (forall h, progressInterval (app st) = Some h ->
                (h < nextHandle (sched st))%nat).

(** The submit button is disabled only while a request is in flight. *)
Definition busyOnlyInFlight (st : ui) : Prop :=
  submitDisabled (form st) = true -> inFlight (sched st) <> 0%nat.

(** Every value drawn from [Math.random()] is in the interval [0, 1). *)
Definition unitDraws (evs : list event) : bool :=
  forallb (fun ev => match ev with
                     | Fire _ r => Qle_bool 0 r && negb (Qle_bool 1 r)
                     | _ => true
                     end) evs.

(** The widths of the running simulators and of the bar. *)
Definition widthsInRange (st : ui) : Prop :=
  (forall h w, timers (sched st) !! h = Some (ProgressTick w) ->
               (0 <= w /\ w < 100)%Q)
  /\ (0 <= barWidth (progress st) /\ barWidth (progress st) <= 100)%Q.

End Conditions.
Import Conditions.

(** ** Routing between the views *)

Module Routing.

(** A [.view-section] element and a [.nav-link] element, with whether
    they carry the class [active]; [link_href] is [getAttribute('href')],
    absent when the link has no such attribute. *)
Record view := { view_id : jsstring; view_active : bool }.
Record navLink := { link_href : option jsstring; link_active : bool }.

(** The part of the document [handleRouting] works on. The elements whose
    id starts with [view-] are taken to be the view sections, so that
    [getElementById] of such an id finds a view section or nothing. The
    scroll position, which nothing reads back, is left out. *)
Record site := { views : list view; links : list navLink }.

Definition deactivate (v : view) : view :=
  {| view_id := view_id v; view_active := false |}.

(** [document.getElementById(id).classList.add('active')] on the first
    element carrying the id; [None] when [getElementById] finds none. *)
Fixpoint activate (id : jsstring) (vs : list view) : option (list view) :=
  match vs with
  | [] => None
  | v :: rest =>
      if bool_decide (view_id v = id)
      then Some ({| view_id := view_id v; view_active := true |} :: rest)
      else cons v <$> activate id rest
  end.

Definition markLinks (hash : jsstring) (ls : list navLink) : list navLink :=
  List.map (fun l => {| link_href := link_href l;
                        link_active := bool_decide (link_href l = Some hash) |})
           ls.

(** [x.length] for the value the page keeps in [state.agents]: the
    number of elements of an array or of code units of a string, the own
    property of an object, [undefined] for a boolean or a number, and a
    thrown TypeError for [null] and [undefined]. *)
Definition getLength (x : value) : completion value :=
  match x with
  | JUndefined | JNull => Throw (TypeError x)
  | JArray elems => Normal (JNumber (ofZ (Z.of_nat (List.length elems))))
  | JString s => Normal (JNumber (ofZ (Z.of_nat (List.length s))))
  | JObject props => Normal (default JUndefined (assoc (lit "length") props))
  | _ => Normal JUndefined
  end.

(** [v === 0]. *)
Definition isZero (v : value) : bool :=
  match v with
  | JNumber (Num q) => Qeq_bool q 0
  | _ => false
  end.

(** The hash the router works with and the page it names. *)
Definition routeHash (locationHash : jsstring) : jsstring :=
  if truthy (JString locationHash) then locationHash else lit "#home".

Definition routePage (locationHash : jsstring) : jsstring :=
  drop 1 (routeHash locationHash).

(** [handleRouting()] for [window.location.hash] and the value of
    [state.agents] (initially the empty array, then whatever
    [fetchAgents] stored from [data.agents]): the document afterwards,
    and whether [fetchAgents()] is called. Without an element [view-home]
    the fallback throws, after every view has been hidden; on the agents
    page reading [state.agents.length] throws, after views and links have
    been switched, when [state.agents] is [null] or [undefined]. *)
Definition handleRouting (locationHash : jsstring) (stateAgents : value)
    (page : site) : site * completion bool :=
  let hash := routeHash locationHash in
  let pageId := routePage locationHash in
  let hidden := List.map deactivate (views page) in
  let finish shown :=
    ({| views := shown; links := markLinks hash (links page) |},
     if bool_decide (pageId = lit "agents")
     then len ← getLength stateAgents; Normal (isZero len)
     else Normal false) in
  match activate (lit "view-" ++ pageId) hidden with
  | Some shown => finish shown
  | None =>
      match activate (lit "view-home") hidden with
      | Some shown => finish shown
      | None => ({| views := hidden; links := links page |},
                 Throw (TypeError JNull))
      end
  end.

(** The id of the view a hash selects on a page. *)
Definition routedView (locationHash : jsstring) (page : site) : jsstring :=
  if bool_decide (lit "view-" ++ routePage locationHash
                  ∈ view_id <$> views page)
  then lit "view-" ++ routePage locationHash
  else lit "view-home".

End Routing.
Import Routing.

Module PageSamples.

Definition dashboard : site :=
  {| views := [ {| view_id := lit "view-home"; view_active := true |};
                {| view_id := lit "view-agents"; view_active := false |};
                {| view_id := lit "view-about"; view_active := false |} ];
     links := [ {| link_href := Some (lit "#home"); link_active := true |};
                {| link_href := Some (lit "#agents"); link_active := false |};
                {| link_href := Some (lit "#about"); link_active := false |} ] |}.

(** An agent whose name is the number 7. *)
Definition numberedAgent : value :=
  JObject [(lit "id", str "seven"); (lit "name", JNumber (ofZ 7))].

End PageSamples.
Import PageSamples.

Module Simulators.

(** The only simulator that may be running is the one of handle [h];
    with [None], no simulator is running. *)
Definition onlySimulator (h : option nat) (st : ui) : Prop :=
  forall k w, timers (sched st) !! k = Some (ProgressTick w) -> h = Some k.

End Simulators.
Import Simulators.

(** * Properties *)

(** ** Induction over values *)

Section ValueInduction.

Variable P : value -> Prop.
Hypothesis Hundefined : P JUndefined.
Hypothesis Hnull : P JNull.
Hypothesis Hbool : forall b, P (JBool b).
Hypothesis Hnumber : forall n, P (JNumber n).
Hypothesis Hstring : forall s, P (JString s).
Hypothesis Harray : forall elems, Forall P elems -> P (JArray elems).
Hypothesis Hobject :
  forall props, Forall (fun kv => P (snd kv)) props -> P (JObject props).

Lemma value_ind : forall v, P v.
Proof.
  fix IH 1. intros [ | | b | n | s | elems | props ].
  - exact Hundefined.
  - exact Hnull.
  - apply Hbool.
  - apply Hnumber.
  - apply Hstring.
  - apply Harray. induction elems as [|x elems IHl]; constructor.
    + apply IH.
    + exact IHl.
  - apply Hobject. induction props as [|[k x] props IHl]; constructor.
    + apply IH.
    + exact IHl.
Qed.

End ValueInduction.

(** ** The resolver unfolded *)

Lemma findOutputFile_container (obj : value) :
  isContainer obj = true ->
  findOutputFile obj =
    match localArtifact obj with
    | Some file => Normal file
    | None => search (children obj)
    end.
Proof.
  destruct obj as [ | | b | n | s | elems | props ]; try discriminate; intros _.
  - cbn -[lit]. induction elems as [|x elems IH]; [reflexivity|].
    cbn -[lit]. destruct (findOutputFile x) as [found|e]; cbn; [|reflexivity].
    destruct (truthy found); [reflexivity|]. apply IH.
  - unfold localArtifact, artifactKeys, firstTruthy.
    cbn -[lit assoc].
    destruct (truthy (default JUndefined (assoc (lit "pdf") props)));
      [reflexivity|].
    destruct (truthy (default JUndefined (assoc (lit "output_file") props)));
      [reflexivity|].
    destruct (truthy (default JUndefined (assoc (lit "image_path") props)));
      [reflexivity|].
    induction props as [|[k x] props IH]; [reflexivity|].
    cbn -[lit]. destruct (findOutputFile x) as [found|e]; cbn; [|reflexivity].
    destruct (truthy found); [reflexivity|]. apply IH.
Qed.

Lemma findOutputFile_leaf (obj : value) :
  isContainer obj = false -> findOutputFile obj = Normal JNull.
Proof.
  destruct obj; try discriminate; intros _; try reflexivity;
    cbn -[truthy lit]; destruct (truthy _); reflexivity.
Qed.

(** ** The resolver as a pre-order search *)

Lemma localArtifact_truthy (n file : value) :
  localArtifact n = Some file -> truthy file = true.
Proof.
  destruct n; try discriminate. unfold localArtifact, firstTruthy.
  intros H. apply List.find_some in H. tauto.
Qed.

Lemma firstArtifact_result (nodes : list value) :
  firstArtifact nodes = JNull \/ truthy (firstArtifact nodes) = true.
Proof.
  induction nodes as [|n nodes IH]; [now left|]. cbn.
  destruct (localArtifact n) eqn:E; [|exact IH].
  right. eapply localArtifact_truthy, E.
Qed.

Lemma firstArtifact_app (l1 l2 : list value) :
  firstArtifact (l1 ++ l2) =
    if truthy (firstArtifact l1) then firstArtifact l1 else firstArtifact l2.
Proof.
  induction l1 as [|n l1 IH]; [reflexivity|]. cbn.
  destruct (localArtifact n) eqn:E; [|exact IH].
  now rewrite (localArtifact_truthy _ _ E).
Qed.

Lemma firstArtifact_none (nodes : list value) :
  Forall (fun m => localArtifact m = None) nodes -> firstArtifact nodes = JNull.
Proof.
  induction 1 as [|n nodes Hn _ IH]; [reflexivity|]. cbn. now rewrite Hn.
Qed.

Lemma preorder_children (v : value) :
  preorder v = v :: List.flat_map preorder (children v).
Proof.
  destruct v; try reflexivity. cbn. f_equal.
  induction props as [|[k x] props IH]; [reflexivity|]. cbn. now rewrite IH.
Qed.

Lemma search_preorder (vs : list value) :
  Forall (fun x => findOutputFile x = Normal (firstArtifact (preorder x))) vs ->
  search vs = Normal (firstArtifact (List.flat_map preorder vs)).
Proof.
  induction 1 as [|x vs Hx _ IH]; [reflexivity|].
  cbn [search List.flat_map]. rewrite Hx, firstArtifact_app. cbn.
  destruct (truthy (firstArtifact (preorder x))); [reflexivity|exact IH].
Qed.

(** [findOutputFile] never throws; it returns the artifact of the first
    value, in pre-order, that has one, and [null] when none has. *)
Lemma findOutputFile_preorder (v : value) :
  findOutputFile v = Normal (firstArtifact (preorder v)).
Proof.
  induction v using value_ind;
    try (rewrite findOutputFile_leaf by reflexivity; reflexivity).
  - rewrite findOutputFile_container, preorder_children by reflexivity.
    cbn. now apply search_preorder.
  - rewrite findOutputFile_container, preorder_children by reflexivity.
    cbn [firstArtifact]. destruct (localArtifact (JObject props)); [reflexivity|].
    apply search_preorder. cbn. now apply Forall_map.
Qed.

Lemma localArtifact_pdf (n pdf : value) :
  getNamed n (lit "pdf") = Normal pdf -> truthy pdf = true ->
  localArtifact n = Some pdf.
Proof.
  destruct n; cbn -[lit]; intros [= <-] Ht; try discriminate.
  unfold firstTruthy, artifactKeys. cbn -[lit]. now rewrite Ht.
Qed.

Lemma localArtifact_absent (n : value) :
  existsb (fun k => ownsKey k n) artifactKeys = false ->
  localArtifact n = None.
Proof.
  destruct n; try reflexivity. unfold artifactKeys, ownsKey, localArtifact.
  cbn -[lit]. intros H.
  repeat (apply orb_false_elim in H as [?%bool_decide_eq_false H]).
  repeat match goal with
         | Hk : ¬ is_Some (assoc ?k props) |- _ =>
             destruct (assoc k props) eqn:?; [exfalso; apply Hk; eauto|clear Hk]
         end.
  reflexivity.
Qed.

(** ** The resolver with a budget agrees with the structural one *)

Lemma findOutputFile_fuel_unfold (fuel : nat) (obj : value) :
  findOutputFile_fuel (S fuel) obj =
    if isContainer obj then
      match localArtifact obj with
      | Some file => Some (Normal file)
      | None => forIn (findOutputFile_fuel fuel) (children obj)
      end
    else Some (Normal JNull).
Proof.
  destruct obj as [ | | b | n | s | elems | props ]; try reflexivity.
  - cbn -[truthy lit]. destruct (truthy _); reflexivity.
  - cbn -[truthy lit]. destruct (truthy _); reflexivity.
  - cbn -[truthy lit]. destruct (truthy _); reflexivity.
  - unfold localArtifact, artifactKeys, firstTruthy.
    cbn -[lit assoc forIn].
    repeat (destruct (truthy (default JUndefined (assoc _ props)));
            [reflexivity|]).
    reflexivity.
Qed.

Lemma forIn_search (call : value -> option (completion value))
    (vs : list value) :
  Forall (fun x => call x = Some (findOutputFile x)) vs ->
  forIn call vs = Some (search vs).
Proof.
  induction 1 as [|x vs Hx _ IH]; [reflexivity|]. cbn. rewrite Hx.
  destruct (findOutputFile x) as [found|e]; cbn; [|reflexivity].
  destruct (truthy found); [reflexivity|exact IH].
Qed.

Lemma height_children (obj : value) :
  Forall (fun x => (height x < height obj)%nat) (children obj).
Proof.
  destruct obj as [ | | b | n | s | elems | props ]; try constructor.
  - cbn. apply Forall_forall. intros x Hx. apply Nat.lt_succ_r.
    pose proof (proj1 (list_max_le (List.map height elems) _) (Nat.le_refl _))
      as Hmax.
    rewrite List.Forall_forall in Hmax. apply Hmax.
    apply List.in_map. now apply list_elem_of_In.
  - cbn. apply Forall_forall. intros x Hx. apply Nat.lt_succ_r.
    set (hs := List.map (fun kv : jsstring * value => let '(_, y) := kv in height y)
                 props).
    pose proof (proj1 (list_max_le hs _) (Nat.le_refl _)) as Hmax.
    rewrite List.Forall_forall in Hmax. apply Hmax.
    apply list_elem_of_In, List.in_map_iff in Hx as [[k y] [<- Hin]].
    subst hs. apply List.in_map_iff. exists (k, y). split; [reflexivity|exact Hin].
Qed.

Lemma findOutputFile_fuel_enough (obj : value) :
  forall fuel, (height obj < fuel)%nat ->
  findOutputFile_fuel fuel obj = Some (findOutputFile obj).
Proof.
  assert (Hstep : forall obj fuel,
    Forall (fun x => forall f, (height x < f)%nat ->
                     findOutputFile_fuel f x = Some (findOutputFile x))
           (children obj) ->
    isContainer obj = true -> (height obj < fuel)%nat ->
    findOutputFile_fuel fuel obj = Some (findOutputFile obj)).
  { clear obj. intros obj [|fuel] IH Hc Hlt; [lia|].
    rewrite findOutputFile_fuel_unfold, findOutputFile_container, Hc by exact Hc.
    destruct (localArtifact obj); [reflexivity|].
    apply forIn_search.
    pose proof (height_children obj) as Hh.
    rewrite Forall_forall in IH, Hh. apply Forall_forall. intros x Hx.
    apply IH; [exact Hx|]. specialize (Hh x Hx). lia. }
  induction obj using value_ind; intros fuel Hlt;
    try (destruct fuel as [|fuel]; [cbn in Hlt; lia|];
         rewrite findOutputFile_fuel_unfold, findOutputFile_leaf by reflexivity;
         reflexivity).
  - apply Hstep; [exact H|reflexivity|exact Hlt].
  - apply Hstep; [|reflexivity|exact Hlt]. cbn. now apply Forall_map.
Qed.

(** ** Falsy artifact values *)

Lemma truthy_prune (v : value) : truthy (prune v) = truthy v.
Proof. destruct v; reflexivity. Qed.

Lemma findOutputFile_falsy (v : value) :
  truthy v = false -> findOutputFile v = Normal JNull.
Proof.
  intros H. destruct v; try discriminate;
    apply findOutputFile_leaf; reflexivity.
Qed.

(** With distinct property names, [obj[key]] is the value the loop
    enumerates with [key]. *)
Lemma assoc_enumerated (k : jsstring) (x : value)
    (props : list (jsstring * value)) :
  NoDup (List.map fst props) -> (k, x) ∈ props -> assoc k props = Some x.
Proof.
  induction props as [|[k0 x0] props IH]; [intros _ []%elem_of_nil|].
  cbn [List.map fst assoc]. intros [Hk0 Hnd]%NoDup_cons Hin.
  apply elem_of_cons in Hin as [[= -> ->]|Hin].
  - now rewrite bool_decide_eq_true_2.
  - case_bool_decide as Hk; [|now apply IH].
    subst k0. exfalso. apply Hk0.
    apply list_elem_of_fmap. now exists (k, x).
Qed.

Lemma assoc_absent (k : jsstring) (props : list (jsstring * value)) :
  k ∉ List.map fst props -> assoc k props = None.
Proof.
  induction props as [|[k0 x0] props IH]; [reflexivity|]. cbn. intros Hn.
  case_bool_decide as Hk.
  - exfalso. apply Hn. subst. left.
  - apply IH. intros Hin. apply Hn. now right.
Qed.

Lemma assoc_prune (k : jsstring) (props : list (jsstring * value)) :
  NoDup (List.map fst props) ->
  assoc k (pruneProps props) =
    match assoc k props with
    | Some x => if isArtifactKey k && negb (truthy x) then None
                else Some (prune x)
    | None => None
    end.
Proof.
  induction props as [|[k0 x0] props IH]; [reflexivity|].
  cbn [List.map fst]. intros [Hk0 Hnd]%NoDup_cons. specialize (IH Hnd).
  cbn [List.flat_map assoc].
  destruct (isArtifactKey k0 && negb (truthy x0)) eqn:Hrm.
  - cbn [Datatypes.app]. case_bool_decide as Hk.
    + subst k0. rewrite Hrm, IH. now rewrite (assoc_absent _ _ Hk0).
    + exact IH.
  - cbn [Datatypes.app assoc]. case_bool_decide as Hk.
    + subst k0. now rewrite Hrm.
    + exact IH.
Qed.

Lemma localArtifact_prune (props : list (jsstring * value)) :
  NoDup (List.map fst props) ->
  localArtifact (JObject (pruneProps props)) =
    prune <$> localArtifact (JObject props).
Proof.
  intros Hnd. unfold localArtifact, firstTruthy.
  induction artifactKeys as [|k ks IH]; [reflexivity|].
  cbn [List.map List.find]. rewrite (assoc_prune _ _ Hnd).
  destruct (assoc k props) as [x|]; cbn [from_option id].
  - destruct (truthy x) eqn:Ht.
    + rewrite andb_false_r. cbn [from_option id]. now rewrite truthy_prune, Ht.
    + destruct (isArtifactKey k); cbn [andb negb from_option id].
      * cbn [truthy]. exact IH.
      * rewrite truthy_prune, Ht. exact IH.
  - cbn [truthy]. exact IH.
Qed.

Lemma search_prune_array (elems : list value) :
  Forall (fun x => prunes (findOutputFile x) (findOutputFile (prune x))) elems ->
  prunes (search elems) (search (List.map prune elems)).
Proof.
  induction 1 as [|x elems (r & Hr & Hr') _ IH]; [now exists JNull|].
  cbn [List.map search]. rewrite Hr, Hr'. cbn. rewrite truthy_prune.
  destruct (truthy r); [now exists r|exact IH].
Qed.

Lemma search_prune_object (props : list (jsstring * value)) :
  Forall (fun kv => prunes (findOutputFile (snd kv))
                           (findOutputFile (prune (snd kv)))) props ->
  prunes (search (List.map snd props))
         (search (List.map snd (pruneProps props))).
Proof.
  induction 1 as [|[k x] props (r & Hr & Hr') _ IH]; [now exists JNull|].
  cbn [List.map List.flat_map snd search] in *.
  destruct (isArtifactKey k && negb (truthy x)) eqn:Hrm.
  - apply andb_prop in Hrm as [_ Hx%negb_true_iff].
    rewrite (findOutputFile_falsy _ Hx). cbn. exact IH.
  - cbn [Datatypes.app List.map snd search]. rewrite Hr, Hr'. cbn. rewrite truthy_prune.
    destruct (truthy r); [now exists r|exact IH].
Qed.

Lemma findOutputFile_prune (v : value) :
  uniqueKeys v = true -> prunes (findOutputFile v) (findOutputFile (prune v)).
Proof.
  induction v using value_ind; intros Hu;
    try (rewrite !findOutputFile_leaf by reflexivity; now exists JNull).
  - cbn [prune]. rewrite !findOutputFile_container by reflexivity. cbn.
    apply search_prune_array. cbn in Hu.
    rewrite forallb_forall in Hu. rewrite Forall_forall in H |- *.
    intros x Hx. apply H; [exact Hx|]. apply Hu. now apply list_elem_of_In.
  - cbn [uniqueKeys] in Hu. apply andb_prop in Hu as [Hnd%bool_decide_eq_true Hu].
    cbn [prune]. rewrite !findOutputFile_container by reflexivity.
    rewrite (localArtifact_prune _ Hnd).
    destruct (localArtifact (JObject props)) as [file|]; cbn.
    + now exists file.
    + apply search_prune_object.
      rewrite forallb_forall in Hu. rewrite Forall_forall in H |- *.
      intros [k x] Hx. cbn. apply (H (k, x) Hx).
      apply (Hu (k, x)). now apply list_elem_of_In.
Qed.

(** ** Claims about the artifact resolver *)

(** C1 (amended). [findOutputFile] returns the value bound to [pdf] at a
    node when that value is truthy and no value visited before the node, in
    pre-order, binds an artifact key to a truthy value; [output_file] and
    [image_path] at the same node, in nested nodes or in later nodes do not
    matter. *)
Theorem findOutputFile_first_pdf (v n pdf : value) (before after : list value) :
  preorder v = before ++ n :: after ->
  Forall (fun m => localArtifact m = None) before ->
  getNamed n (lit "pdf") = Normal pdf ->
  truthy pdf = true ->
  findOutputFile v = Normal pdf.
Proof.
  intros Hpre Hbefore Hpdf Ht.
  rewrite findOutputFile_preorder, Hpre, firstArtifact_app.
  rewrite (firstArtifact_none _ Hbefore). cbn.
  now rewrite (localArtifact_pdf _ _ Hpdf Ht).
Qed.

Lemma findOutputFile_first_pdf_witness :
  findOutputFile nestedReport = Normal (str "out/r.pdf").
Proof.
  apply (findOutputFile_first_pdf nestedReport reportNode (str "out/r.pdf")
           [nestedReport; JObject [(lit "pages", JNumber (ofZ 3))];
            JNumber (ofZ 3)]
           [str "out/r.pdf"; str "o.txt";
            JObject [(lit "image_path", str "i.png")]; str "i.png"]).
  - reflexivity.
  - repeat constructor.
  - reflexivity.
  - reflexivity.
Defined.

(** C1 as stated fails: a [pdf] key that sits below a node with
    [output_file] is not returned, and neither is a [pdf] bound to the
    empty string. *)
Lemma findOutputFile_pdf_not_returned :
  (JObject [(lit "pdf", str "b.pdf")] ∈ preorder shadowedPdf
   /\ findOutputFile shadowedPdf = Normal (str "a.txt")
   /\ findOutputFile shadowedPdf <> Normal (str "b.pdf"))
  /\ (getNamed emptyPdf (lit "pdf") = Normal (str "")
      /\ findOutputFile emptyPdf = Normal (str "c.png")
      /\ findOutputFile emptyPdf <> Normal (str "")).
Proof.
  repeat split; try reflexivity; try discriminate.
  cbn. rewrite !elem_of_cons. right. right. now left.
Qed.

(** C4. On a structure that mentions none of [pdf], [output_file],
    [image_path] at any depth, and on a value that is neither an object nor
    an array ([undefined], [null], a boolean, a number, a string),
    [findOutputFile] completes normally with [null]. *)
Theorem findOutputFile_no_artifact (v : value) :
  mentionsArtifactKey v = false \/ isContainer v = false ->
  findOutputFile v = Normal JNull.
Proof.
  intros [Hm|Hc]; [|now apply findOutputFile_leaf].
  rewrite findOutputFile_preorder. f_equal. apply firstArtifact_none.
  unfold mentionsArtifactKey in Hm. apply Forall_forall. intros n Hn.
  apply localArtifact_absent.
  destruct (existsb (fun k => ownsKey k n) artifactKeys) eqn:E; [|reflexivity].
  rewrite <- Hm. symmetry. apply existsb_exists. exists n.
  split; [now apply list_elem_of_In|exact E].
Qed.

Lemma findOutputFile_no_artifact_witness :
  findOutputFile plainResult = Normal JNull
  /\ findOutputFile JNull = Normal JNull
  /\ findOutputFile (str "quiz.pdf") = Normal JNull.
Proof.
  split; [|split].
  - apply (findOutputFile_no_artifact plainResult). left. reflexivity.
  - apply (findOutputFile_no_artifact JNull). right. reflexivity.
  - apply (findOutputFile_no_artifact (str "quiz.pdf")). right. reflexivity.
Defined.

(** C9. [findOutputFile] terminates on every finite structure: each
    recursive call is made on a child, whose nesting depth is strictly
    smaller, so a budget of nested calls one above the depth of the input
    (or any larger one) is never exhausted, and the run returns what the
    structural recursion computes, which is a normal completion. *)
Theorem findOutputFile_terminates (obj : value) (extra : nat) :
  Forall (fun x => (height x < height obj)%nat) (children obj)
  /\ findOutputFile_fuel (S (height obj) + extra) obj = Some (findOutputFile obj)
  /\ exists file, findOutputFile obj = Normal file.
Proof.
  split; [apply height_children|]. split.
  - apply findOutputFile_fuel_enough. lia.
  - eexists. apply findOutputFile_preorder.
Qed.

Lemma localArtifact_falsy (m : value) :
  falsyArtifacts m -> localArtifact m = None.
Proof.
  destruct m as [ | | | | | |props]; try reflexivity. cbn [falsyArtifacts].
  intros H. unfold localArtifact, firstTruthy.
  assert (Hk : forall k, k ∈ artifactKeys ->
            truthy (default JUndefined (assoc k props)) = false).
  { intros k Hin. destruct (assoc k props) as [x|] eqn:E; [|reflexivity].
    exact (H k x Hin E). }
  clear H. induction artifactKeys as [|k ks IH]; [reflexivity|].
  cbn [List.map List.find]. rewrite Hk by left.
  apply IH. intros k' Hk'. apply Hk. now right.
Qed.

(** C10. An artifact key bound to a falsy value ([""], [0], [null],
    [false]) counts as absent at every node. The search passes over every
    value whose artifact keys are all falsy or missing and goes on through
    the rest of the structure: when every value is such it returns [null],
    and otherwise it returns the artifact of the first value, in
    pre-order, that has a truthy one, which is therefore truthy. It gives
    the same file, up to pruning, on the structure from which every falsy
    artifact binding has been removed, and what it returns is [null] or
    truthy. *)
Theorem findOutputFile_skips_falsy (v : value) :
  uniqueKeys v = true ->
  (Forall falsyArtifacts (preorder v) -> findOutputFile v = Normal JNull)
  /\ (forall before n after file,
        preorder v = before ++ n :: after ->
        Forall falsyArtifacts before ->
        localArtifact n = Some file ->
        findOutputFile v = Normal file /\ truthy file = true)
  /\ (exists file,
        findOutputFile v = Normal file
        /\ findOutputFile (prune v) = Normal (prune file)
        /\ (file = JNull \/ truthy file = true)).
Proof.
  intros Hu. split; [|split].
  - intros Hall. rewrite findOutputFile_preorder. f_equal.
    apply firstArtifact_none. apply Forall_forall. intros m Hm.
    apply localArtifact_falsy. rewrite Forall_forall in Hall. now apply Hall.
  - intros before n after file Hpre Hbefore Hn.
    split; [|exact (localArtifact_truthy _ _ Hn)].
    rewrite findOutputFile_preorder, Hpre, firstArtifact_app.
    rewrite (firstArtifact_none before).
    + cbn. now rewrite Hn.
    + apply Forall_forall. intros m Hm. apply localArtifact_falsy.
      rewrite Forall_forall in Hbefore. now apply Hbefore.
  - destruct (findOutputFile_prune v Hu) as (file & Hf & Hp).
    exists file. repeat split; [exact Hf|exact Hp|].
    rewrite findOutputFile_preorder in Hf. injection Hf as <-.
    apply firstArtifact_result.
Qed.

Lemma findOutputFile_skips_falsy_witness :
  (Forall falsyArtifacts (preorder falsyKeys) ->
   findOutputFile falsyKeys = Normal JNull)
  /\ (forall before n after file,
        preorder falsyKeys = before ++ n :: after ->
        Forall falsyArtifacts before ->
        localArtifact n = Some file ->
        findOutputFile falsyKeys = Normal file /\ truthy file = true)
  /\ (exists file,
        findOutputFile falsyKeys = Normal file
        /\ findOutputFile (prune falsyKeys) = Normal (prune file)
        /\ (file = JNull \/ truthy file = true)).
Proof. apply (findOutputFile_skips_falsy falsyKeys). reflexivity. Defined.

(** On [falsyKeys] the root and its three falsy artifact values are passed
    over and the file of the nested object is found. *)
Example falsyKeys_search_goes_on :
  preorder falsyKeys =
    [falsyKeys; str ""; JNumber (ofZ 0); JNull]
    ++ JObject [(lit "pdf", JBool false); (lit "output_file", str "real.txt")]
    :: [JBool false; str "real.txt"]
  /\ localArtifact falsyKeys = None
  /\ localArtifact (JObject [(lit "pdf", JBool false);
                             (lit "output_file", str "real.txt")])
     = Some (str "real.txt")
  /\ findOutputFile falsyKeys = Normal (str "real.txt").
Proof. repeat split. Qed.

Example falsyKeys_pruned :
  prune falsyKeys = JObject [(lit "data", JObject [(lit "output_file", str "real.txt")])]
  /\ findOutputFile falsyKeys = Normal (str "real.txt").
Proof. split; reflexivity. Qed.

(** ** Strings *)

Lemma trimStart_blank (s : jsstring) :
  forallb isWhiteSpace s = true -> trimStart s = [].
Proof.
  induction s as [|c s IH]; [reflexivity|]. cbn [forallb trimStart].
  intros [Hc Hs]%andb_prop. rewrite Hc. now apply IH.
Qed.

Lemma trim_blank (s : jsstring) :
  forallb isWhiteSpace s = true -> trim s = [].
Proof. intros H. unfold trim. now rewrite (trimStart_blank _ H). Qed.

Lemma split_shape (s : jsstring) :
  exists seg0 segs,
    split s = seg0 :: segs
    /\ Forall (fun c => isSeparator c = false) seg0
    /\ (segs = [] -> s = seg0)
    /\ (segs <> [] ->
        exists name dir d c,
          last segs = Some name
          /\ Forall (fun c => isSeparator c = false) name
          /\ s = dir ++ name /\ dir = d ++ [c] /\ isSeparator c = true).
Proof.
  induction s as [|a s (seg0 & segs & Hs & Hseg0 & Hone & Hmany)].
  - exists [], []. repeat split; [constructor|congruence].
  - cbn [split]. destruct (isSeparator a) eqn:Ha.
    + exists [], (split s). split; [reflexivity|]. split; [constructor|].
      split; [intros E; rewrite Hs in E; discriminate|]. intros _.
      rewrite Hs. destruct segs as [|seg1 segs].
      * exists seg0, [a], [], a. rewrite (Hone eq_refl). repeat split; auto.
      * destruct Hmany as (name & dir & d & c & Hl & Hn & -> & -> & Hc);
          [discriminate|].
        exists name, (a :: d ++ [c]), (a :: d), c.
        repeat split; auto.
    + rewrite Hs. exists (a :: seg0), segs. split; [reflexivity|].
      split; [constructor; assumption|]. split.
      * intros E. now rewrite (Hone E).
      * intros E. destruct (Hmany E) as (name & dir & d & c & Hl & Hn & -> & -> & Hc).
        exists name, (a :: d ++ [c]), (a :: d), c. repeat split; auto.
Qed.

(** The name [renderResult] derives from a path has no separator, and the
    path is that name after nothing or after a prefix that ends with a
    separator. *)
Lemma fileName_last_segment (path : jsstring) :
  Forall (fun c => isSeparator c = false) (fileName path)
  /\ exists dir, path = dir ++ fileName path
       /\ (dir = [] \/ exists d c, dir = d ++ [c] /\ isSeparator c = true).
Proof.
  unfold fileName, pop.
  destruct (split_shape path) as (seg0 & segs & -> & Hseg0 & Hone & Hmany).
  destruct segs as [|seg1 segs].
  - cbn. split; [exact Hseg0|]. exists []. split; [now rewrite (Hone eq_refl)|now left].
  - destruct Hmany as (name & dir & d & c & Hl & Hn & Hp & Hd & Hc); [discriminate|].
    change (last (seg0 :: seg1 :: segs)) with (last (seg1 :: segs)).
    rewrite Hl. cbn. split; [exact Hn|]. exists dir. split; [exact Hp|].
    right. now exists d, c.
Qed.

Lemma parseInt_result (s : jsstring) :
  parseInt s = NaN \/ isInteger (parseInt s).
Proof.
  unfold parseInt, isInteger.
  destruct (match trimStart s with
            | [] => (false, [])
            | c :: rest =>
                if c =? 45 then (true, rest)
                else if c =? 43 then (false, rest) else (false, trimStart s)
            end) as [neg S1].
  destruct (match S1 with
            | 48 :: x :: rest =>
                if (x =? 120) || (x =? 88) then (16, rest) else (10, S1)
            | _ => (10, S1)
            end) as [R S2].
  destruct (digitsPrefix R S2); [now left|right; eauto].
Qed.

(** ** Claims about the submit handler *)

Lemma getNamed_truthy (v : value) (name : jsstring) :
  truthy v = true -> exists x, getNamed v name = Normal x.
Proof. destruct v; try discriminate; intros _; cbn; eauto. Qed.

(** C5. A topic made of white space only (the empty topic included) is
    trimmed to the empty string, and the handler then passes no request to
    [fetch]: it returns after at most moving the focus to the input. *)
Theorem blank_topic_sends_nothing (st : ui) :
  forallb isWhiteSpace (topicValue (form st)) = true ->
  trim (topicValue (form st)) = []
  /\ snd (onSubmitClick st) = None
  /\ (fst (onSubmitClick st) = st \/ fst (onSubmitClick st) = focusTopic st).
Proof.
  intros Hblank. pose proof (trim_blank _ Hblank) as Ht.
  split; [exact Ht|]. unfold onSubmitClick. rewrite Ht.
  destruct (truthy (currentAgent (app st))); cbn; auto.
Qed.

Lemma blank_topic_sends_nothing_witness :
  trim [32; 9; 160; 10] = []
  /\ snd (onSubmitClick blankTopic) = None
  /\ (fst (onSubmitClick blankTopic) = blankTopic
      \/ fst (onSubmitClick blankTopic) = focusTopic blankTopic).
Proof. apply (blank_topic_sends_nothing blankTopic). reflexivity. Defined.

Lemma gather_lookup (els : list element) (m : gmap jsstring value)
    (name : jsstring) :
  fold_left (fun options el => <[el_name el := coerce el]> options) els m
    !! name
  = match last (filter (fun el => el_name el = name) els) with
    | Some el => Some (coerce el)
    | None => m !! name
    end.
Proof.
  revert m. induction els as [|el els IH]; intros m; [reflexivity|].
  cbn [fold_left]. rewrite IH, filter_cons. case_decide as Hn.
  - rewrite last_cons. destruct (last (filter _ els)); [reflexivity|].
    subst name. apply lookup_insert_eq.
  - destruct (last (filter _ els)); [reflexivity|].
    now apply lookup_insert_ne.
Qed.

Lemma onSubmitClick_sends (st : ui) :
  truthy (currentAgent (app st)) = true ->
  trim (topicValue (form st)) <> [] ->
  exists id,
    getNamed (currentAgent (app st)) (lit "id") = Normal id
    /\ onSubmitClick st =
         (let st1 := startProgress (setSubmit true Processing st) in
          setInFlight (S (inFlight (sched st1))) st1,
          Some {| req_agent := id;
                  req_topic := trim (topicValue (form st));
                  req_options := gatherOptions (optionEls (form st)) |}).
Proof.
  intros Ha Ht. destruct (getNamed_truthy _ (lit "id") Ha) as [id Hid].
  exists id. split; [exact Hid|]. unfold onSubmitClick. rewrite Ha.
  cbn [negb truthy]. rewrite bool_decide_eq_false_2 by exact Ht.
  cbn [negb]. cbn [setSubmit with_form app]. now rewrite Hid.
Qed.

(** C3 (amended). Whatever the option controls hold, a submission with an
    agent and a topic sends its request. The options map binds each name
    to the coerced value of the last control of that name; for a control of
    type [number] that value is [parseInt] of the text, an integer when the
    text starts with one and [NaN] otherwise. No value makes the handler
    refuse the request. *)
Theorem number_options_go_through_parseInt (st : ui) :
  truthy (currentAgent (app st)) = true ->
  trim (topicValue (form st)) <> [] ->
  exists req,
    snd (onSubmitClick st) = Some req
    /\ (forall name,
          req_options req !! name =
            coerce <$> last (filter (fun el => el_name el = name)
                               (optionEls (form st))))
    /\ (forall el, el_type el = lit "number" ->
          coerce el = JNumber (parseInt (el_value el))
          /\ (parseInt (el_value el) = NaN
              \/ isInteger (parseInt (el_value el)))).
Proof.
  intros Ha Ht. destruct (onSubmitClick_sends st Ha Ht) as (id & _ & ->).
  eexists. split; [reflexivity|]. split.
  - intros name. cbn [req_options]. unfold gatherOptions.
    rewrite gather_lookup. destruct (last _); [reflexivity|].
    apply lookup_empty.
  - intros el Hty. split; [|apply parseInt_result].
    unfold coerce. now rewrite bool_decide_eq_true_2.
Qed.

Lemma number_options_go_through_parseInt_witness :
  exists req,
    snd (onSubmitClick readyToSubmit) = Some req
    /\ (forall name,
          req_options req !! name =
            coerce <$> last (filter (fun el => el_name el = name)
                               (optionEls (form readyToSubmit))))
    /\ (forall el, el_type el = lit "number" ->
          coerce el = JNumber (parseInt (el_value el))
          /\ (parseInt (el_value el) = NaN
              \/ isInteger (parseInt (el_value el)))).
Proof.
  apply (number_options_go_through_parseInt readyToSubmit).
  - reflexivity.
  - discriminate.
Defined.

(** C3 as stated fails: with the number field of the presentation agent
    emptied, [parseInt] gives [NaN] and the request is sent with it. *)
Lemma unparsable_number_is_sent :
  optionEls (form emptiedNumber) =
    [{| el_name := lit "num_slides"; el_type := lit "number"; el_value := [] |}]
  /\ parseInt [] = NaN
  /\ snd (onSubmitClick emptiedNumber) =
       Some {| req_agent := str "presentation_gen";
               req_topic := lit "AI in 2026";
               req_options := {[ lit "num_slides" := JNumber NaN ]} |}.
Proof. vm_compute. split; [|split]; reflexivity. Qed.

Example default_number_is_sent :
  snd (onSubmitClick readyToSubmit) =
    Some {| req_agent := str "presentation_gen";
            req_topic := lit "AI in 2026";
            req_options := {[ lit "num_slides" := JNumber (ofZ 5) ]} |}.
Proof. vm_compute. reflexivity. Qed.

(** ** Claims about rendering *)

(** C8. When the resolver finds a path, the name [renderResult] puts into
    the link [/files/<name>] and into [download] is the last segment of
    the path cut at [/] and [\]: it holds no separator, and the path is
    that name alone or a prefix ending with a separator followed by it. *)
Theorem download_name_is_last_segment (st : ui) (found : value)
    (path : jsstring) :
  findOutputFile found = Normal (JString path) ->
  path <> [] ->
  let page := result (fst (renderResult found st)) in
  snd (renderResult found st) = Normal tt
  /\ downloadShown page = true
  /\ href page = lit "/files/" ++ download page
  /\ download page = fileName path
  /\ Forall (fun c => isSeparator c = false) (download page)
  /\ exists dir, path = dir ++ download page
       /\ (dir = [] \/ exists d c, dir = d ++ [c] /\ isSeparator c = true).
Proof.
  intros Hfind Hpath page.
  assert (Hc : isContainer found = true).
  { destruct (isContainer found) eqn:E; [reflexivity|].
    rewrite (findOutputFile_leaf _ E) in Hfind. discriminate. }
  assert (Hpage : renderResult found st =
            (setResultShown true
               (offerDownload (fileName path)
                  (setDisplay
                     (ResultView
                        (truthy (default JUndefined
                                   match found with
                                   | JObject props => assoc (lit "pdf") props
                                   | _ => None
                                   end)) found) st)), Normal tt)).
  { unfold renderResult. destruct found; try discriminate.
    - cbn [getNamed]. rewrite Hfind. cbn [truthy].
      now rewrite bool_decide_eq_false_2 by exact Hpath.
    - cbn [getNamed]. rewrite Hfind. cbn [truthy].
      now rewrite bool_decide_eq_false_2 by exact Hpath. }
  subst page. rewrite Hpage. cbn.
  repeat (split; [reflexivity|]). apply fileName_last_segment.
Qed.

Lemma download_name_is_last_segment_witness :
  let page := result (fst (renderResult pathResult submitted)) in
  snd (renderResult pathResult submitted) = Normal tt
  /\ downloadShown page = true
  /\ href page = lit "/files/" ++ download page
  /\ download page = fileName serverPath
  /\ Forall (fun c => isSeparator c = false) (download page)
  /\ exists dir, serverPath = dir ++ download page
       /\ (dir = [] \/ exists d c, dir = d ++ [c] /\ isSeparator c = true).
Proof.
  apply (download_name_is_last_segment submitted pathResult serverPath).
  - reflexivity.
  - discriminate.
Defined.

Example server_path_name :
  href (result (fst (renderResult pathResult submitted)))
  = lit "/files/quiz_123.pdf".
Proof. reflexivity. Qed.

(** ** Claims about the progress simulator *)

(** C6. After every run of the interval callback the bar shows at most
    90 percent, hence never 100, whatever [Math.random] has drawn. *)
Theorem tick_shows_at_most_90 (st : ui) (h : nat) (width random : Q) :
  timers (sched st) !! h = Some (ProgressTick width) ->
  (barWidth (progress (fire h random st)) <= 90)%Q
  /\ ~ (barWidth (progress (fire h random st)) == 100)%Q.
Proof.
  intros Hh. unfold fire. rewrite Hh. unfold progressTick.
  assert (Hbar : forall st0,
    barWidth (progress
      (remember h (ProgressTick (width + random * 10))
         (setDetail (phaseLabel (width + random * 10))
            (setBar (Qmin (width + random * 10) 90) st0))))
    = Qmin (width + random * 10) 90) by reflexivity.
  rewrite Hbar.
  pose proof (Q.le_min_r (width + random * 10) 90) as Hle.
  split; [exact Hle|]. intros Heq. rewrite Heq in Hle.
  apply (Qle_not_lt _ _ Hle). reflexivity.
Qed.

Lemma tick_shows_at_most_90_witness :
  (barWidth (progress (fire 1 (99 # 100) submitted)) <= 90)%Q
  /\ ~ (barWidth (progress (fire 1 (99 # 100) submitted)) == 100)%Q.
Proof.
  apply (tick_shows_at_most_90 submitted 1 0 (99 # 100)). reflexivity.
Defined.

Lemma tryBody_keeps_state (o : outcome) (st : ui) :
  app (fst (tryBody o st)) = app st /\ sched (fst (tryBody o st)) = sched st.
Proof.
  unfold tryBody, renderResult, showError.
  repeat case_match; split; reflexivity.
Qed.

(** C7. When the awaited call ends, with a response that reports success,
    with one that reports failure, or with a rejection or an exception
    thrown while rendering, the handler leaves the bar at 100 percent, the
    detail label at [Complete] and the submit button enabled with its
    label restored. *)
Theorem settled_call_completes_progress (st : ui) (o : outcome) :
  barWidth (progress (onSettled o st)) = 100%Q
  /\ detailText (progress (onSettled o st)) = lit "Complete"
  /\ submitDisabled (form (onSettled o st)) = false
  /\ submitLabel (form (onSettled o st)) = ExecuteAgent.
Proof.
  unfold onSettled. destruct (tryBody o st) as [st1 [u|e]];
    unfold stopProgress, clearInterval;
    match goal with
    | |- context [progressInterval (app ?s)] =>
        destruct (progressInterval (app s))
    end; repeat split; reflexivity.
Qed.

Lemma quiet_step_armed (h : nat) (st : ui) (ev : event) :
  quiet ev = true -> armed h st -> armed h (step st ev).
Proof.
  unfold armed. intros Hq (Hp & Hh & Hf).
  destruct ev as [id| |s|i s| |h' r|o]; try discriminate; cbn [step].
  - unfold openAgent. repeat case_match; cbn; auto.
  - cbn. auto with lia.
  - cbn. auto.
  - cbn. auto.
  - unfold fire, progressTick. repeat case_match; cbn; auto.
Qed.

Lemma quiet_run_armed (h : nat) (evs : list event) (st : ui) :
  forallb quiet evs = true -> armed h st -> armed h (run evs st).
Proof.
  revert st. induction evs as [|ev evs IH]; intros st Hq Ha; [exact Ha|].
  cbn in Hq. apply andb_prop in Hq as [Hev Hq].
  apply IH; [exact Hq|]. now apply quiet_step_armed.
Qed.

Lemma stopProgress_clears (h : nat) (st : ui) :
  progressInterval (app st) = Some h ->
  (h < nextHandle (sched st))%nat ->
  running h (stopProgress st) = false.
Proof.
  intros Hp Hh. unfold stopProgress, running. rewrite Hp. cbn.
  apply bool_decide_eq_false_2. rewrite lookup_insert_ne by lia.
  rewrite lookup_delete_eq. now intros [? ?].
Qed.

Lemma onSettled_clears (h : nat) (o : outcome) (st : ui) :
  progressInterval (app st) = Some h ->
  (h < nextHandle (sched st))%nat ->
  running h (onSettled o st) = false.
Proof.
  intros Hp Hh. unfold onSettled.
  destruct (tryBody_keeps_state o st) as [Happ Hsched].
  destruct (tryBody o st) as [st1 c]. cbn [fst] in Happ, Hsched.
  apply stopProgress_clears.
  - destruct c; cbn; now rewrite Happ.
  - destruct c; cbn; now rewrite Hsched.
Qed.





(** ** Claims about the timer *)




(** A second submission made while the first is awaited (the modal closed
    and opened again, which enables the button) takes over
    [state.progressInterval]: the response to the first request then
    clears the interval of the second, and the interval of the first goes
    on until its width has reached 90. *)
Remark overlapping_submissions :
  let again := [Close; Open (lit "presentation_gen");
                TypeTopic (lit "again"); Click] in
  let st2 := run again submitted in
  let st3 := run [Settle (Responded (JObject [(lit "success", JBool true);
                                               (lit "result", quizResult)]))]
                 st2 in
  progressInterval (app st2) = Some 3%nat
  /\ running 1 st3 = true
  /\ running 3 st3 = false
  /\ inFlight (sched st3) = 1%nat.
Proof. vm_compute. repeat split. Qed.

(** ** Worked examples *)

Example quiz_artifact :
  findOutputFile quizResult = Normal (str "quiz_123.pdf").
Proof. reflexivity. Qed.

Example artifact_object_is_returned_whole :
  findOutputFile (JObject [(lit "pdf", JObject [(lit "output_file", str "x")])])
  = Normal (JObject [(lit "output_file", str "x")]).
Proof. reflexivity. Qed.

Example fileName_examples :
  fileName (lit "C:\out/dir\quiz.pdf") = lit "quiz.pdf"
  /\ fileName (lit "quiz.pdf") = lit "quiz.pdf"
  /\ fileName (lit "out/") = []
  /\ split (lit "/a\b") = [[]; lit "a"; lit "b"].
Proof. repeat split. Qed.

Example parseInt_examples :
  parseInt (lit "5") = ofZ 5
  /\ parseInt (lit "3.7") = ofZ 3
  /\ parseInt (lit "1e3") = ofZ 1
  /\ parseInt (lit "  -0x1fz") = ofZ (-31)
  /\ parseInt (lit "") = NaN
  /\ parseInt (lit "abc") = NaN.
Proof. repeat split. Qed.

Example trim_examples :
  trim (lit "  Python Basics ") = lit "Python Basics"
  /\ trim (lit "   ") = [].
Proof. repeat split. Qed.

Example rendering_a_number_artifact_throws :
  snd (renderResult (JObject [(lit "pdf", JNumber (ofZ 7))]) submitted)
  = Throw (TypeError (JNumber (ofZ 7))).
Proof. reflexivity. Qed.

(** * Further properties *)

(** ** Trimming *)

Lemma trimStart_split (s : jsstring) :
  exists l, s = l ++ trimStart s /\ forallb isWhiteSpace l = true.
Proof.
  induction s as [|c s (l & Hs & Hl)]; [now exists []|].
  cbn [trimStart]. destruct (isWhiteSpace c) eqn:Hc.
  - exists (c :: l). cbn. rewrite Hc, Hl. split; [now f_equal|reflexivity].
  - now exists [].
Qed.

Lemma trimStart_head (s : jsstring) (c : N) (rest : jsstring) :
  trimStart s = c :: rest -> isWhiteSpace c = false.
Proof.
  induction s as [|a s IH]; [discriminate|]. cbn [trimStart].
  destruct (isWhiteSpace a) eqn:Ha; [exact IH|]. now intros [= <- _].
Qed.

Lemma trimStart_fixed (s : jsstring) (c : N) (rest : jsstring) :
  s = c :: rest -> isWhiteSpace c = false -> trimStart s = s.
Proof. intros -> Hc. cbn. now rewrite Hc. Qed.

Lemma forallb_rev_ws (l : jsstring) :
  forallb isWhiteSpace (rev l) = forallb isWhiteSpace l.
Proof.
  induction l as [|c l IH]; [reflexivity|].
  cbn [rev]. rewrite forallb_app, IH. cbn. rewrite andb_true_r. apply andb_comm.
Qed.

Lemma trimEnd_split (s : jsstring) :
  exists r, s = trimEnd s ++ r /\ forallb isWhiteSpace r = true.
Proof.
  unfold trimEnd. destruct (trimStart_split (rev s)) as (l & Hs & Hl).
  exists (rev l). split.
  - rewrite <- rev_app_distr, <- Hs. now rewrite rev_involutive.
  - now rewrite forallb_rev_ws.
Qed.

Lemma trimEnd_last (s : jsstring) (c : N) :
  last (trimEnd s) = Some c -> isWhiteSpace c = false.
Proof.
  unfold trimEnd.
  destruct (trimStart (rev s)) as [|a rest] eqn:E; [discriminate|].
  cbn [rev]. rewrite last_snoc.
  intros [= <-]. exact (trimStart_head _ _ _ E).
Qed.

Lemma trimEnd_head (s : jsstring) (c : N) (rest : jsstring) :
  s = c :: rest -> isWhiteSpace c = false -> exists rest', trimEnd s = c :: rest'.
Proof.
  intros -> Hc. unfold trimEnd. cbn [rev].
  destruct (trimStart_split (rev rest ++ [c])) as (l & Hs & Hl).
  set (T := trimStart (rev rest ++ [c])) in *.
  apply (f_equal (@rev N)) in Hs. rewrite !rev_app_distr in Hs.
  cbn [rev app] in Hs. rewrite rev_involutive in Hs.
  destruct (rev T) as [|b u] eqn:Er.
  - exfalso. cbn in Hs. rewrite forallb_forall in Hl.
    assert (Hin : In c l) by (apply in_rev; rewrite <- Hs; now left).
    rewrite (Hl _ Hin) in Hc. discriminate.
  - cbn in Hs. injection Hs as -> _. now exists u.
Qed.

(** The shape of [trim]: white space before, the trimmed text, white space
    after; the trimmed text neither starts nor ends with white space. *)
Lemma trim_shape (s : jsstring) :
  (exists l r, s = l ++ trim s ++ r
     /\ forallb isWhiteSpace l = true /\ forallb isWhiteSpace r = true)
  /\ (forall c rest, trim s = c :: rest -> isWhiteSpace c = false)
  /\ (forall c, last (trim s) = Some c -> isWhiteSpace c = false).
Proof.
  unfold trim. split; [|split].
  - destruct (trimStart_split s) as (l & Hs & Hl).
    destruct (trimEnd_split (trimStart s)) as (r & Ht & Hr).
    exists l, r. split; [|now split]. now rewrite <- Ht.
  - intros c rest Hc.
    destruct (trimStart s) as [|a t] eqn:E; [discriminate|].
    pose proof (trimStart_head _ _ _ E) as Ha.
    destruct (trimEnd_head (a :: t) a t eq_refl Ha) as [rest' Hr].
    rewrite Hr in Hc. now injection Hc as <- _.
  - intros c. apply trimEnd_last.
Qed.

Lemma trim_nonBlank (s : jsstring) :
  trim s <> [] <-> nonBlank s = true.
Proof.
  unfold nonBlank. split.
  - intros Hne. destruct (existsb _ s) eqn:E; [reflexivity|].
    exfalso. apply Hne, trim_blank. apply forallb_forall. intros c Hc.
    destruct (isWhiteSpace c) eqn:Hw; [reflexivity|].
    assert (existsb (fun c => negb (isWhiteSpace c)) s = true)
      by (apply existsb_exists; exists c; now rewrite Hw).
    congruence.
  - intros [c [Hin Hc]]%existsb_exists Ht.
    destruct (trim_shape s) as [(l & r & Hs & Hl & Hr) _].
    rewrite Ht in Hs. cbn in Hs. rewrite Hs in Hin.
    apply in_app_or in Hin as [Hin|Hin].
    + rewrite forallb_forall in Hl. rewrite (Hl _ Hin) in Hc. discriminate.
    + rewrite forallb_forall in Hr. rewrite (Hr _ Hin) in Hc. discriminate.
Qed.

(** ** More on the submit handler *)

Lemma onSubmitClick_request (st : ui) (req : request) :
  snd (onSubmitClick st) = Some req ->
  truthy (currentAgent (app st)) = true
  /\ trim (topicValue (form st)) <> []
  /\ req_topic req = trim (topicValue (form st))
  /\ req_options req = gatherOptions (optionEls (form st))
  /\ getNamed (currentAgent (app st)) (lit "id") = Normal (req_agent req).
Proof.
  unfold onSubmitClick.
  destruct (truthy (currentAgent (app st))) eqn:Ha; cbn [negb];
    [|discriminate].
  destruct (trim (topicValue (form st))) as [|c t] eqn:Ht;
    [discriminate|].
  cbn [truthy negb]. rewrite bool_decide_eq_false_2 by discriminate.
  cbn [negb setSubmit with_form app].
  destruct (getNamed (currentAgent (app st)) (lit "id")) as [id|e];
    cbn [snd]; [|discriminate].
  intros [= <-]. cbn. repeat split; discriminate.
Qed.

(** X1. The topic of a request is the text of the input without the white
    space around it: it is not empty, it neither starts nor ends with a
    white-space character, and the input is that topic between two runs
    of white space. *)
Theorem sent_topic_is_trimmed (st : ui) (req : request) :
  snd (onSubmitClick st) = Some req ->
  req_topic req <> []
  /\ (exists l r, topicValue (form st) = l ++ req_topic req ++ r
        /\ forallb isWhiteSpace l = true /\ forallb isWhiteSpace r = true)
  /\ (forall c rest, req_topic req = c :: rest -> isWhiteSpace c = false)
  /\ (forall c, last (req_topic req) = Some c -> isWhiteSpace c = false).
Proof.
  intros (_ & Hne & -> & _)%onSubmitClick_request.
  split; [exact Hne|]. apply trim_shape.
Qed.

Lemma sent_topic_is_trimmed_witness :
  lit "AI in 2026" <> []
  /\ (exists l r, lit "  AI in 2026 " = l ++ lit "AI in 2026" ++ r
        /\ forallb isWhiteSpace l = true /\ forallb isWhiteSpace r = true)
  /\ (forall c rest, lit "AI in 2026" = c :: rest -> isWhiteSpace c = false)
  /\ (forall c, last (lit "AI in 2026") = Some c -> isWhiteSpace c = false).
Proof.
  apply (sent_topic_is_trimmed
           (setTopic (lit "  AI in 2026 ") readyToSubmit)
           {| req_agent := str "presentation_gen";
              req_topic := lit "AI in 2026";
              req_options := {[ lit "num_slides" := JNumber (ofZ 5) ]} |}).
  vm_compute. reflexivity.
Defined.

(** X2. The handler passes a request to [fetch] exactly when an agent is
    current and the topic has a character that is not white space. *)
Theorem request_sent_iff (st : ui) :
  is_Some (snd (onSubmitClick st))
  <-> truthy (currentAgent (app st)) = true
      /\ nonBlank (topicValue (form st)) = true.
Proof.
  split.
  - intros [req Hreq]. apply onSubmitClick_request in Hreq as (Ha & Hne & _).
    split; [exact Ha|]. now apply trim_nonBlank.
  - intros [Ha Hnb]. apply trim_nonBlank in Hnb.
    destruct (onSubmitClick_sends st Ha Hnb) as (id & _ & ->). cbn. eauto.
Qed.

(** X3. A second click on the submit button changes nothing: while the
    first request is awaited the button is disabled, and a click that was
    turned down is turned down again. *)
Theorem second_click_does_nothing (st : ui) :
  step (step st Click) Click = step st Click.
Proof.
  cbn [step]. destruct (submitDisabled (form st)) eqn:Hd.
  - now rewrite Hd.
  - unfold onSubmitClick.
    destruct (truthy (currentAgent (app st))) eqn:Ha; cbn [negb fst].
    + destruct (trim (topicValue (form st))) as [|c t] eqn:Ht.
      * cbn [truthy negb]. rewrite bool_decide_eq_true_2 by reflexivity.
        cbn [negb fst].
        change (submitDisabled (form (focusTopic st)))
          with (submitDisabled (form st)).
        rewrite Hd. unfold onSubmitClick.
        change (currentAgent (app (focusTopic st)))
          with (currentAgent (app st)).
        change (topicValue (form (focusTopic st)))
          with (topicValue (form st)).
        rewrite Ha, Ht. reflexivity.
      * cbn [truthy]. rewrite bool_decide_eq_false_2 by discriminate.
        cbn [negb setSubmit with_form app].
        destruct (getNamed (currentAgent (app st)) (lit "id")); reflexivity.
    + rewrite Hd, Ha. reflexivity.
Qed.

(** ** Numerals *)

Lemma mathInt_snoc (R : N) (ds : list N) (d : N) :
  mathInt R (ds ++ [d]) = mathInt R ds * R + d.
Proof. unfold mathInt. now rewrite fold_left_app. Qed.

Lemma digitsOf_spec (fuel : nat) :
  forall n, n < 2 ^ N.of_nat fuel -> (0 < fuel)%nat ->
  digitsOf fuel n <> []
  /\ Forall (fun d => d < 10) (digitsOf fuel n)
  /\ mathInt 10 (digitsOf fuel n) = n.
Proof.
  induction fuel as [|fuel IH]; intros n Hn Hf; [lia|].
  cbn [digitsOf]. destruct (N.ltb_spec n 10) as [Hlt|Hge].
  - split; [discriminate|]. split; [now repeat constructor|].
    unfold mathInt. cbn. lia.
  - rewrite Nat2N.inj_succ, N.pow_succ_r' in Hn.
    assert (Hdiv : n / 10 < 2 ^ N.of_nat fuel).
    { apply N.Div0.div_lt_upper_bound. lia. }
    assert (Hpos : (0 < fuel)%nat).
    { destruct fuel; [cbn in Hn; lia|lia]. }
    destruct (IH _ Hdiv Hpos) as (Hne & Hds & Hm).
    split; [now destruct (digitsOf fuel (n / 10))|]. split.
    + apply Forall_app. split; [exact Hds|]. repeat constructor.
      apply N.mod_lt. lia.
    + rewrite mathInt_snoc, Hm. pose proof (N.div_mod n 10). lia.
Qed.

Lemma toDecimal_digits (n : N) :
  exists d ds,
    toDecimal n = List.map (fun d => d + 48) (d :: ds)
    /\ Forall (fun d => d < 10) (d :: ds)
    /\ mathInt 10 (d :: ds) = n.
Proof.
  unfold toDecimal.
  destruct (digitsOf_spec (S (N.to_nat (N.log2 n))) n) as (Hne & Hds & Hm).
  - rewrite Nat2N.inj_succ, N2Nat.id.
    destruct n as [|p]; [reflexivity|]. apply N.log2_spec. lia.
  - lia.
  - destruct (digitsOf _ n) as [|d ds]; [contradiction|]. now exists d, ds.
Qed.

Ltac digit_cases d H :=
  assert (d = 0 \/ d = 1 \/ d = 2 \/ d = 3 \/ d = 4 \/ d = 5 \/ d = 6
          \/ d = 7 \/ d = 8 \/ d = 9) as Hcases by lia;
  clear H;
  destruct Hcases as [->|[->|[->|[->|[->|[->|[->|[->|[->| ->]]]]]]]]].

Lemma radixDigit_digit (d : N) : d < 10 -> radixDigit 10 (d + 48) = Some d.
Proof. intros H. digit_cases d H; reflexivity. Qed.

Lemma digitsPrefix_numeral (ds : list N) (rest : jsstring) :
  Forall (fun d => d < 10) ds ->
  endsNumeral rest = true ->
  digitsPrefix 10 (List.map (fun d => d + 48) ds ++ rest) = ds.
Proof.
  intros Hds Hrest. induction Hds as [|d ds Hd _ IH].
  - cbn [List.map Datatypes.app]. destruct rest as [|c rest]; [reflexivity|].
    cbn [endsNumeral] in Hrest.
    apply andb_prop in Hrest as [[Hc%negb_true_iff _]%andb_prop _].
    apply bool_decide_eq_false in Hc. cbn [digitsPrefix].
    destruct (radixDigit 10 c); [exfalso; apply Hc; eauto|reflexivity].
  - cbn [List.map Datatypes.app digitsPrefix]. rewrite (radixDigit_digit _ Hd).
    now rewrite IH.
Qed.

Lemma parseInt_after_digit (neg : bool) (c : N) (t : jsstring) :
  48 <= c <= 57 ->
  match t with
  | x :: _ => (x =? 120) || (x =? 88) = false
  | [] => True
  end ->
  parseInt ((if neg then [45] else []) ++ c :: t) =
    match digitsPrefix 10 (c :: t) with
    | [] => NaN
    | ds => ofZ (if neg then - Z.of_N (mathInt 10 ds)
                 else Z.of_N (mathInt 10 ds))
    end.
Proof.
  intros Hc Hhex.
  assert (c = 48 \/ c = 49 \/ c = 50 \/ c = 51 \/ c = 52 \/ c = 53
          \/ c = 54 \/ c = 55 \/ c = 56 \/ c = 57) as Hcases by lia.
  clear Hc. unfold parseInt.
  destruct Hcases as [->|[->|[->|[->|[->|[->|[->|[->|[->| ->]]]]]]]]];
    destruct neg; destruct t as [|x t];
    cbn -[digitsPrefix mathInt ofZ Z.of_N]; try rewrite Hhex; reflexivity.
Qed.

Lemma parseInt_numeral (neg : bool) (d : N) (ds : list N) (rest : jsstring) :
  Forall (fun d => d < 10) (d :: ds) ->
  endsNumeral rest = true ->
  parseInt ((if neg then [45] else [])
              ++ List.map (fun d => d + 48) (d :: ds) ++ rest)
  = ofZ (if neg then - Z.of_N (mathInt 10 (d :: ds))
         else Z.of_N (mathInt 10 (d :: ds))).
Proof.
  intros Hds Hrest.
  pose proof (digitsPrefix_numeral _ _ Hds Hrest) as Hp.
  apply Forall_cons in Hds as [Hd Hds].
  cbn [List.map Datatypes.app] in *.
  rewrite parseInt_after_digit, Hp; [reflexivity|lia|].
  destruct ds as [|x ds]; cbn [List.map Datatypes.app].
  - destruct rest as [|c rest]; [exact I|]. cbn [endsNumeral] in Hrest.
    apply andb_prop in Hrest as [[_ H1%negb_true_iff]%andb_prop
                                   H2%negb_true_iff].
    now rewrite H1, H2.
  - apply Forall_cons in Hds as [Hx _]. digit_cases x Hx; reflexivity.
Qed.

(** X4. A natural number up to 2^53 (the range in which a Number holds
    every integer exactly, so that [parseInt] returns the integer it
    reads) printed in decimal and read back by [parseInt] is the number
    itself, also when the numeral is followed by a fraction, an exponent
    or any other text that does not start with a digit (nor make a
    hexadecimal prefix), and with a minus sign before a positive numeral
    the result is the opposite. So a number control left at a default the
    page printed contributes that number to the options. *)
Theorem parseInt_reads_printed_number (n : N) (rest : jsstring) :
  n <= 2 ^ 53 ->
  endsNumeral rest = true ->
  parseInt (toDecimal n ++ rest) = ofZ (Z.of_N n)
  /\ (0 < n -> parseInt (45 :: toDecimal n ++ rest) = ofZ (- Z.of_N n))
  /\ (forall opt, opt_type opt = lit "number" ->
        opt_default opt = toDecimal n ->
        coerce (controlOf opt) = JNumber (ofZ (Z.of_N n))).
Proof.
  intros _ Hrest. destruct (toDecimal_digits n) as (d & ds & Hdec & Hds & Hm).
  assert (Hplain : forall tail, endsNumeral tail = true ->
            parseInt (toDecimal n ++ tail) = ofZ (Z.of_N n)).
  { intros tail Htail. rewrite Hdec, <- Hm.
    exact (parseInt_numeral false d ds tail Hds Htail). }
  split; [now apply Hplain|]. split.
  - intros _. rewrite Hdec, <- Hm.
    exact (parseInt_numeral true d ds rest Hds Hrest).
  - intros opt Hty Hdef. unfold controlOf, coerce.
    rewrite Hty. cbn [el_type el_value].
    rewrite (bool_decide_eq_false_2 (lit "number" = lit "select"))
      by (intros E; vm_compute in E; discriminate E).
    cbn [el_type el_value].
    rewrite bool_decide_eq_true_2 by reflexivity.
    rewrite Hdef, <- (app_nil_r (toDecimal n)). f_equal. now apply Hplain.
Qed.

Lemma parseInt_reads_printed_number_witness :
  parseInt (toDecimal 12 ++ lit ".75") = ofZ 12
  /\ (0 < 12 -> parseInt (45 :: toDecimal 12 ++ lit ".75") = ofZ (-12))
  /\ (forall opt, opt_type opt = lit "number" ->
        opt_default opt = toDecimal 12 ->
        coerce (controlOf opt) = JNumber (ofZ 12)).
Proof.
  apply (parseInt_reads_printed_number 12 (lit ".75")).
  - vm_compute. discriminate.
  - reflexivity.
Defined.

(** ** File names *)

Lemma split_nonempty (s : jsstring) : split s <> [].
Proof.
  destruct s as [|c s]; [discriminate|]. cbn [split].
  destruct (isSeparator c); [discriminate|].
  destruct (split s); discriminate.
Qed.

Lemma split_plain (name : jsstring) :
  Forall (fun c => isSeparator c = false) name -> split name = [name].
Proof.
  induction 1 as [|c name Hc _ IH]; [reflexivity|].
  cbn [split]. now rewrite Hc, IH.
Qed.

(** Cutting distributes over a separator. *)
Lemma split_at_separator (dir : jsstring) (c : N) (name : jsstring) :
  isSeparator c = true ->
  split (dir ++ c :: name) = split dir ++ split name.
Proof.
  intros Hc. induction dir as [|a dir IH].
  - cbn [Datatypes.app split]. now rewrite Hc.
  - cbn [Datatypes.app split]. rewrite IH. destruct (isSeparator a); [reflexivity|].
    pose proof (split_nonempty dir). now destruct (split dir).
Qed.

(** X5. Whatever directories precede it, with [/] or [\] between them in
    any mix, the name of the download link is what follows the last
    separator; a path without separator is its own name. *)
Theorem fileName_drops_directories (dir name : jsstring) (c : N) :
  isSeparator c = true ->
  Forall (fun c => isSeparator c = false) name ->
  fileName (dir ++ c :: name) = name /\ fileName name = name.
Proof.
  intros Hc Hname. unfold fileName, pop.
  rewrite (split_at_separator _ _ _ Hc), (split_plain _ Hname).
  now rewrite last_snoc.
Qed.

Lemma fileName_drops_directories_witness :
  fileName (lit "C:\out/quiz" ++ 47 :: lit "quiz_123.pdf") = lit "quiz_123.pdf"
  /\ fileName (lit "quiz_123.pdf") = lit "quiz_123.pdf".
Proof.
  apply (fileName_drops_directories (lit "C:\out/quiz") (lit "quiz_123.pdf") 47).
  - reflexivity.
  - repeat constructor.
Defined.

(** ** Names as the page prints them *)

Lemma toUpperCase_word (c : N) : isWordChar (toUpperCase c) = isWordChar c.
Proof.
  unfold toUpperCase.
  destruct ((97 <=? c) && (c <=? 122)) eqn:E; [|reflexivity].
  unfold isWordChar. rewrite E.
  apply andb_prop in E as [H1%N.leb_le H2%N.leb_le].
  assert (A : (65 <=? c - 32) && (c - 32 <=? 90) = true)
    by (apply andb_true_intro; split; apply N.leb_le; lia).
  rewrite A. now rewrite !orb_true_r.
Qed.

Lemma toUpperCase_twice (c : N) : toUpperCase (toUpperCase c) = toUpperCase c.
Proof.
  unfold toUpperCase.
  destruct ((97 <=? c) && (c <=? 122)) eqn:E; [|now rewrite E].
  apply andb_prop in E as [H1%N.leb_le H2%N.leb_le].
  assert (A : (97 <=? c - 32) = false) by (apply N.leb_gt; lia).
  now rewrite A.
Qed.

Lemma toUpperCase_underscore (c : N) : toUpperCase c = 95 -> c = 95.
Proof.
  unfold toUpperCase.
  destruct (N.leb_spec 97 c), (N.leb_spec c 122); cbn [andb]; lia.
Qed.

Lemma capitalizeWords_length (b : bool) (s : jsstring) :
  List.length (capitalizeWords b s) = List.length s.
Proof.
  revert b. induction s as [|c s IH]; intros b; [reflexivity|].
  cbn. now rewrite IH.
Qed.

Lemma capitalizeWords_twice (b : bool) (s : jsstring) :
  capitalizeWords b (capitalizeWords b s) = capitalizeWords b s.
Proof.
  revert b. induction s as [|c s IH]; intros b; [reflexivity|].
  cbn [capitalizeWords].
  destruct (isWordChar c && negb b) eqn:E.
  - rewrite toUpperCase_word. apply andb_prop in E as [Hw Hb].
    rewrite Hw, Hb. cbn [andb]. now rewrite toUpperCase_twice, IH.
  - rewrite E. now rewrite IH.
Qed.

Lemma capitalizeWords_underscore (b : bool) (s : jsstring) :
  95 ∉ s -> 95 ∉ capitalizeWords b s.
Proof.
  revert b. induction s as [|c s IH]; intros b Hs; [exact Hs|].
  cbn [capitalizeWords]. apply not_elem_of_cons in Hs as [Hc Hs].
  apply not_elem_of_cons. split; [|now apply IH].
  destruct (isWordChar c && negb b); [|congruence].
  intros E. symmetry in E. apply toUpperCase_underscore in E. congruence.
Qed.

Lemma underscoresToSpaces_clean (s : jsstring) : 95 ∉ underscoresToSpaces s.
Proof.
  induction s as [|c s IH]; [apply not_elem_of_nil|].
  cbn. apply not_elem_of_cons. split; [|exact IH].
  destruct (N.eqb_spec c 95); [discriminate|congruence].
Qed.

Lemma underscoresToSpaces_fixed (s : jsstring) :
  95 ∉ s -> underscoresToSpaces s = s.
Proof.
  induction s as [|c s IH]; [reflexivity|].
  intros [Hc Hs]%not_elem_of_cons. unfold underscoresToSpaces in *.
  cbn [List.map]. rewrite (IH Hs).
  destruct (N.eqb_spec c 95); congruence.
Qed.

(** The two models of [formatName] agree on when it throws. *)
Lemma formatName_agrees (v : value) :
  formatName v = Normal tt <-> exists t, formatNameText v = Normal t.
Proof.
  unfold formatName, formatNameText.
  destruct (truthy v); cbn [negb]; [|split; eauto].
  destruct v; split; try discriminate; eauto; intros [t Ht]; discriminate.
Qed.

(** X6. The text [formatName] prints for a name has as many characters as
    the name and no underscore, and printing that text again gives the
    same text. *)
Theorem formatName_text (s : jsstring) :
  exists t,
    formatNameText (JString s) = Normal t
    /\ List.length t = List.length s
    /\ (95 ∉ t)
    /\ formatNameText (JString t) = Normal t.
Proof.
  destruct s as [|c s]; [exists []; repeat split; apply not_elem_of_nil|].
  set (t := capitalizeWords false (underscoresToSpaces (c :: s))).
  assert (Hlen : List.length t = List.length (c :: s)).
  { subst t. rewrite capitalizeWords_length. apply length_map. }
  assert (Hclean : 95 ∉ t).
  { subst t. apply capitalizeWords_underscore, underscoresToSpaces_clean. }
  exists t. split; [reflexivity|]. split; [exact Hlen|]. split; [exact Hclean|].
  unfold formatNameText. destruct t as [|a t'] eqn:Et; [discriminate|].
  cbn [truthy]. rewrite bool_decide_eq_false_2 by discriminate. cbn [negb].
  rewrite (underscoresToSpaces_fixed _ Hclean), <- Et. subst t.
  now rewrite capitalizeWords_twice.
Qed.

Example formatName_examples :
  formatNameText (str "presentation_gen") = Normal (lit "Presentation Gen")
  /\ formatNameText (str "security_recon") = Normal (lit "Security Recon")
  /\ formatNameText (str "dsa") = Normal (lit "Dsa")
  /\ formatNameText JNull = Normal []
  /\ formatNameText (JNumber (ofZ 7)) = Throw (TypeError (JNumber (ofZ 7))).
Proof. repeat split. Qed.

(** ** The options map *)

Lemma gather_dom (els : list element) (m : gmap jsstring value) :
  dom (fold_left (fun options el => <[el_name el := coerce el]> options) els m)
  = dom m ∪ list_to_set (el_name <$> els).
Proof.
  revert m. induction els as [|el els IH]; intros m.
  - cbn. set_solver.
  - cbn [fold_left]. rewrite IH, dom_insert_L. cbn. set_solver.
Qed.

Lemma filter_absent_name (n : jsstring) (els : list element) :
  n ∉ el_name <$> els -> filter (fun el => el_name el = n) els = [].
Proof.
  induction els as [|el els IH]; [reflexivity|].
  cbn [fmap list_fmap]. intros [Hn Hs]%not_elem_of_cons.
  rewrite filter_cons. case_decide; [congruence|]. now apply IH.
Qed.

Lemma gather_unique (els : list element) (m : gmap jsstring value)
    (el : element) :
  NoDup (el_name <$> els) -> el ∈ els ->
  fold_left (fun options el => <[el_name el := coerce el]> options) els m
    !! el_name el = Some (coerce el).
Proof.
  revert m. induction els as [|e els IH]; intros m Hnd Hin.
  - now apply elem_of_nil in Hin.
  - cbn [fmap list_fmap] in Hnd. apply NoDup_cons in Hnd as [Hne Hnd].
    cbn [fold_left]. apply elem_of_cons in Hin as [->|Hin].
    + rewrite gather_lookup, (filter_absent_name _ _ Hne). cbn.
      apply lookup_insert_eq.
    + now apply IH.
Qed.

(** X7. When the controls have pairwise distinct names, the options of the
    request have exactly one entry per control: the names of the map are
    the names of the controls, their number is the number of controls, and
    each control's name is bound to its own coerced value. *)
Theorem options_one_entry_per_control (els : list element) :
  NoDup (el_name <$> els) ->
  dom (gatherOptions els) = list_to_set (el_name <$> els)
  /\ size (gatherOptions els) = List.length els
  /\ (forall el, el ∈ els ->
        gatherOptions els !! el_name el = Some (coerce el)).
Proof.
  intros Hnd. unfold gatherOptions.
  assert (Hdom : dom (fold_left
                        (fun options el => <[el_name el := coerce el]> options)
                        els (∅ : gmap jsstring value))
                 = list_to_set (el_name <$> els)).
  { rewrite gather_dom. set_solver. }
  split; [exact Hdom|]. split.
  - rewrite <- size_dom, Hdom, size_list_to_set by exact Hnd.
    apply length_fmap.
  - intros el Hin. now apply gather_unique.
Qed.

Lemma options_one_entry_per_control_witness :
  dom (gatherOptions travelControls)
    = list_to_set (el_name <$> travelControls)
  /\ size (gatherOptions travelControls) = List.length travelControls
  /\ (forall el, el ∈ travelControls ->
        gatherOptions travelControls !! el_name el = Some (coerce el)).
Proof.
  apply (options_one_entry_per_control travelControls).
  vm_compute. repeat constructor; set_solver.
Defined.

(** ** More on the resolver *)

Lemma localArtifact_origin (n file : value) :
  localArtifact n = Some file ->
  exists props k,
    n = JObject props /\ k ∈ artifactKeys /\ assoc k props = Some file.
Proof.
  destruct n as [ | | | | | |props]; try discriminate.
  unfold localArtifact, firstTruthy. intros H.
  apply List.find_some in H as [Hin Ht].
  apply List.in_map_iff in Hin as (k & Hk & Hin).
  exists props, k. split; [reflexivity|]. split; [now apply list_elem_of_In|].
  destruct (assoc k props) as [x|]; cbn in Hk; [now subst|].
  subst file. discriminate.
Qed.

Lemma firstArtifact_origin (nodes : list value) :
  firstArtifact nodes = JNull
  \/ exists props k,
       JObject props ∈ nodes /\ k ∈ artifactKeys
       /\ assoc k props = Some (firstArtifact nodes).
Proof.
  induction nodes as [|n nodes IH]; [now left|]. cbn [firstArtifact].
  destruct (localArtifact n) as [file|] eqn:E.
  - right. destruct (localArtifact_origin _ _ E) as (props & k & -> & Hk & Ha).
    exists props, k. split; [left|now split].
  - destruct IH as [IH|(props & k & Hin & Hk & Ha)]; [now left|].
    right. exists props, k. split; [now right|now split].
Qed.

(** X8. The resolver invents nothing: what it returns is [null], or a
    truthy value that some object of the structure binds to [pdf],
    [output_file] or [image_path]. *)
Theorem findOutputFile_returns_a_bound_value (v : value) :
  exists file,
    findOutputFile v = Normal file
    /\ (file = JNull
        \/ truthy file = true
           /\ exists props k,
                JObject props ∈ preorder v /\ k ∈ artifactKeys
                /\ assoc k props = Some file).
Proof.
  exists (firstArtifact (preorder v)). split; [apply findOutputFile_preorder|].
  destruct (firstArtifact_result (preorder v)) as [E|E]; [now left|].
  right. split; [exact E|].
  destruct (firstArtifact_origin (preorder v)) as [H|H]; [|exact H].
  rewrite H in E. discriminate.
Qed.

(** X9. Nesting leaves the search alone: a result put under a key that is
    not an artifact key, or into a one-element array, yields the same
    file. *)
Theorem findOutputFile_through_wrappers (k : jsstring) (v : value) :
  k ∉ artifactKeys ->
  findOutputFile (JObject [(k, v)]) = findOutputFile v
  /\ findOutputFile (JArray [v]) = findOutputFile v.
Proof.
  intros Hk.
  assert (Hone : search [v] = findOutputFile v).
  { cbn [search]. rewrite findOutputFile_preorder. cbn.
    destruct (firstArtifact_result (preorder v)) as [-> | ->]; reflexivity. }
  split.
  - rewrite findOutputFile_container by reflexivity.
    replace (localArtifact (JObject [(k, v)])) with (@None value); [exact Hone|].
    unfold localArtifact, firstTruthy, artifactKeys in *. cbn [List.map assoc].
    rewrite !bool_decide_eq_false_2; [reflexivity| | |];
      intros ->; apply Hk; set_solver.
  - rewrite findOutputFile_container by reflexivity. exact Hone.
Qed.

Lemma findOutputFile_through_wrappers_witness :
  findOutputFile
    (JObject [(lit "data", JObject [(lit "output_file", str "out/plan.md")])])
  = findOutputFile (JObject [(lit "output_file", str "out/plan.md")])
  /\ findOutputFile (JArray [JObject [(lit "output_file", str "out/plan.md")]])
     = findOutputFile (JObject [(lit "output_file", str "out/plan.md")]).
Proof.
  apply (findOutputFile_through_wrappers (lit "data")
           (JObject [(lit "output_file", str "out/plan.md")])).
  vm_compute. set_solver.
Defined.

Example wrapped_artifact :
  findOutputFile wrappedResult = Normal (str "out/plan.md").
Proof. reflexivity. Qed.

(** ** What a settled call shows *)

Lemma stopProgress_keeps_result (st : ui) :
  result (stopProgress st) = result st /\ form (stopProgress st) = form st.
Proof.
  unfold stopProgress, clearInterval.
  destruct (progressInterval (app st)); split; reflexivity.
Qed.

(** X10. Once the call has ended the result area is visible and shows
    either the result or an error box, never nothing. It shows the result
    exactly when the response reports success, an agent is still current,
    the result is not [null], and the file found in it is a string or
    missing; in every other case, a reported failure, a rejected call, a
    closed modal, an unreadable result or a file that is not a string, it
    shows an error box. *)
Theorem settled_call_shows_result_or_error (o : outcome) (st : ui) :
  areaShown (result (onSettled o st)) = true
  /\ ((exists banner r,
         display (result (onSettled o st)) = ResultView banner r
         /\ rendersResult o st r)
      \/ (exists msg,
            display (result (onSettled o st)) = ErrorBox msg
            /\ forall r, ~ rendersResult o st r)).
Proof.
  unfold onSettled. destruct (tryBody o st) as [st1 c] eqn:Htry.
  rewrite (proj1 (stopProgress_keeps_result _)).
  unfold tryBody, renderResult, mbind, completion_bind in Htry.
  unfold rendersResult.
  assert (Herror : forall e : exn,
    (forall r, ~ rendersResult o st r) ->
    areaShown (result (setSubmit false ExecuteAgent (showError (Caught e) st1)))
      = true
    /\ ((exists banner r,
           display (result (setSubmit false ExecuteAgent
                              (showError (Caught e) st1)))
             = ResultView banner r
           /\ rendersResult o st r)
        \/ (exists msg,
              display (result (setSubmit false ExecuteAgent
                                 (showError (Caught e) st1)))
                = ErrorBox msg
              /\ forall r, ~ rendersResult o st r))).
  { intros e Hno. split; [reflexivity|]. right. eexists.
    split; [reflexivity|exact Hno]. }
  unfold rendersResult in Herror.
  destruct o as [data|e].
  2:{ injection Htry as <- <-. apply Herror.
      intros r (? & ? & ? & ? & ? & ? & _). congruence. }
  destruct (getNamed data (lit "success")) as [success|e] eqn:Hs.
  2:{ injection Htry as <- <-. apply Herror.
      intros r (? & ? & ? & ? & ? & ? & ? & _). congruence. }
  destruct (truthy success) eqn:Ht.
  2:{ assert (Hno : forall r, ~ (exists d s i p f,
              Responded data = Responded d
              /\ getNamed d (lit "success") = Normal s
              /\ truthy s = true
              /\ getNamed (currentAgent (app st)) (lit "id") = Normal i
              /\ getNamed d (lit "result") = Normal r
              /\ getNamed r (lit "pdf") = Normal p
              /\ findOutputFile r = Normal f
              /\ (truthy f = false \/ exists path, f = JString path))).
      { intros r (? & ? & ? & ? & ? & ? & ? & ? & _). congruence. }
      destruct (getNamed data (lit "detail")) as [detail|e];
        injection Htry as <- <-; [|now apply Herror].
      split; [reflexivity|]. right. eexists. split; [reflexivity|exact Hno]. }
  destruct (getNamed (currentAgent (app st)) (lit "id")) as [id|e] eqn:Hid.
  2:{ injection Htry as <- <-. apply Herror.
      intros r (? & ? & ? & ? & ? & ? & ? & ? & ? & _). congruence. }
  destruct (getNamed data (lit "result")) as [r|e] eqn:Hr.
  2:{ injection Htry as <- <-. apply Herror.
      intros r (? & ? & ? & ? & ? & ? & ? & ? & ? & ? & _). congruence. }
  destruct (getNamed r (lit "pdf")) as [pdf|e] eqn:Hp.
  2:{ injection Htry as <- <-. apply Herror.
      intros r' (? & ? & ? & ? & ? & ? & ? & ? & ? & ? & ? & _). congruence. }
  destruct (findOutputFile r) as [file|e] eqn:Hf.
  2:{ injection Htry as <- <-. apply Herror.
      intros r' (? & ? & ? & ? & ? & ? & ? & ? & ? & ? & ? & ? & _).
      congruence. }
  destruct (truthy file) eqn:Hfile.
  - destruct file as [ | | b | n | path | elems | props ];
      try discriminate; injection Htry as <- <-;
      try (apply Herror;
           intros r' (? & ? & ? & ? & ? & ? & ? & ? & ? & ? & ? & ?
                      & [?|[? ?]]); congruence).
    split; [reflexivity|]. left. do 2 eexists. split; [reflexivity|].
    exists data, success, id, pdf, (JString path). eauto 10.
  - injection Htry as <- <-. split; [reflexivity|]. left. do 2 eexists.
    split; [reflexivity|].
    exists data, success, id, pdf, file. eauto 10.
Qed.



(** ** Opening the modal *)

Lemma findAgent_none (id : jsstring) (l : list value) :
  Forall (otherAgent id) l -> findAgent id l = Normal None.
Proof.
  induction 1 as [|a l (x & Hx & Hne) _ IH]; [reflexivity|].
  cbn [findAgent]. rewrite Hx. cbn. now rewrite Hne.
Qed.

Lemma findAgent_first (id : jsstring) (before after : list value) (a : value) :
  Forall (otherAgent id) before ->
  getNamed a (lit "id") = Normal (JString id) ->
  findAgent id (before ++ a :: after) = Normal (Some a).
Proof.
  intros Hb Ha. induction Hb as [|b l (x & Hx & Hne) _ IH].
  - cbn [Datatypes.app findAgent]. rewrite Ha. cbn.
    now rewrite bool_decide_eq_true_2.
  - cbn [Datatypes.app findAgent]. rewrite Hx. cbn. now rewrite Hne.
Qed.

(** X12. Opening an identifier that no entry of [state.agents] carries
    changes nothing on the page and throws nothing. *)
Theorem openAgent_unknown_id (id : jsstring) (st : ui) :
  Forall (otherAgent id) (agents (app st)) ->
  openAgent id st = (st, Normal tt).
Proof. intros H. unfold openAgent. now rewrite (findAgent_none _ _ H). Qed.

Lemma openAgent_unknown_id_witness :
  openAgent (lit "quiz_gen") readyToSubmit = (readyToSubmit, Normal tt).
Proof.
  apply (openAgent_unknown_id (lit "quiz_gen") readyToSubmit).
  repeat constructor. exists (str "presentation_gen"). split; reflexivity.
Defined.

(** X13. Opening an identifier that names no member inherited from
    [Object.prototype] makes current the first entry of [state.agents]
    that carries it and readies the form for it: the topic is emptied,
    the controls are those of the identifier with their defaults, the
    button is enabled, the result and the progress bar are hidden and the
    modal is shown. For an inherited name such as [constructor] the call
    of [renderOptions] throws instead: the agent is current and the topic
    emptied, but the controls, the button and the modal stay as they
    were. Either way timers and requests in flight are left as they
    are. *)
Theorem openAgent_selects_first_match (id : jsstring) (st : ui)
    (before after : list value) (a name : value) :
  agents (app st) = before ++ a :: after ->
  Forall (otherAgent id) before ->
  getNamed a (lit "id") = Normal (JString id) ->
  getNamed a (lit "name") = Normal name ->
  formatName name = Normal tt ->
  let st' := fst (openAgent id st) in
  currentAgent (app st') = a
  /\ topicValue (form st') = []
  /\ sched st' = sched st
  /\ progressInterval (app st') = progressInterval (app st)
  /\ (id ∉ inheritedNames ->
      snd (openAgent id st) = Normal tt
      /\ optionEls (form st') = renderOptions id
      /\ submitDisabled (form st') = false
      /\ modalActive st' = true
      /\ areaShown (result st') = false
      /\ containerShown (progress st') = false)
  /\ (id ∈ inheritedNames ->
      snd (openAgent id st) = Throw (TypeError JUndefined)
      /\ optionEls (form st') = optionEls (form st)
      /\ submitDisabled (form st') = submitDisabled (form st)
      /\ modalActive st' = modalActive st).
Proof.
  intros Hag Hb Ha Hn Hf st'. subst st'. unfold openAgent, renderOptionsCall.
  rewrite Hag, (findAgent_first _ _ _ _ Hb Ha), Hn.
  cbn [mbind completion_bind]. rewrite Hf.
  case_bool_decide as Hid; cbn; repeat split; intros; try contradiction;
    reflexivity.
Qed.

Lemma openAgent_selects_first_match_witness :
  let st' := fst (openAgent (lit "presentation_gen") submitted) in
  currentAgent (app st') = presentationAgent
  /\ topicValue (form st') = []
  /\ sched st' = sched submitted
  /\ progressInterval (app st') = progressInterval (app submitted)
  /\ (lit "presentation_gen" ∉ inheritedNames ->
      snd (openAgent (lit "presentation_gen") submitted) = Normal tt
      /\ optionEls (form st') = renderOptions (lit "presentation_gen")
      /\ submitDisabled (form st') = false
      /\ modalActive st' = true
      /\ areaShown (result st') = false
      /\ containerShown (progress st') = false)
  /\ (lit "presentation_gen" ∈ inheritedNames ->
      snd (openAgent (lit "presentation_gen") submitted)
        = Throw (TypeError JUndefined)
      /\ optionEls (form st') = optionEls (form submitted)
      /\ submitDisabled (form st') = submitDisabled (form submitted)
      /\ modalActive st' = modalActive submitted).
Proof.
  apply (openAgent_selects_first_match (lit "presentation_gen") submitted
           [] [] presentationAgent (str "presentation_gen")).
  - reflexivity.
  - constructor.
  - reflexivity.
  - reflexivity.
  - reflexivity.
Defined.

Example opening_constructor_throws :
  let st := loaded [JObject [(lit "id", str "constructor");
                             (lit "name", str "constructor")]] in
  snd (openAgent (lit "constructor") st) = Throw (TypeError JUndefined)
  /\ modalActive (fst (openAgent (lit "constructor") st)) = false.
Proof. vm_compute. split; reflexivity. Qed.

(** X14. An agent whose [name] is truthy but not a string becomes current
    without the modal being readied: [formatName] throws after
    [state.currentAgent] was set, so the topic, the controls, the button
    and the visibility of the modal stay those of the page before. *)
Theorem openAgent_with_unprintable_name (id : jsstring) (st : ui)
    (before after : list value) (a name : value) (e : exn) :
  agents (app st) = before ++ a :: after ->
  Forall (otherAgent id) before ->
  getNamed a (lit "id") = Normal (JString id) ->
  getNamed a (lit "name") = Normal name ->
  formatName name = Throw e ->
  openAgent id st = (setCurrentAgent a st, Throw e)
  /\ form (fst (openAgent id st)) = form st
  /\ modalActive (fst (openAgent id st)) = modalActive st.
Proof.
  intros Hag Hb Ha Hn Hf. unfold openAgent.
  rewrite Hag, (findAgent_first _ _ _ _ Hb Ha), Hn.
  cbn [mbind completion_bind]. rewrite Hf. repeat split.
Qed.

(** ** Invariants of the runs *)

Lemma openAgent_keeps_scheduler (id : jsstring) (st : ui) :
  sched (fst (openAgent id st)) = sched st
  /\ progressInterval (app (fst (openAgent id st))) = progressInterval (app st).
Proof. unfold openAgent. repeat case_match; split; reflexivity. Qed.

Lemma onSubmitClick_cases (st : ui) :
  fst (onSubmitClick st) = st
  \/ fst (onSubmitClick st) = focusTopic st
  \/ fst (onSubmitClick st) = setSubmit true Processing st
  \/ fst (onSubmitClick st) =
       (let st1 := startProgress (setSubmit true Processing st) in
        setInFlight (S (inFlight (sched st1))) st1).
Proof. unfold onSubmitClick. repeat case_match; cbn [fst]; auto. Qed.

Ltac handles :=
  repeat match goal with
         | H : is_Some (<[_ := _]> _ !! _) |- _ =>
             apply lookup_insert_is_Some in H as [<-|[? H]]
         | H : is_Some (delete _ _ !! _) |- _ =>
             apply lookup_delete_is_Some in H as [? H]
         | H : is_Some (alter _ _ _ !! _) |- _ =>
             apply lookup_alter_is_Some in H
         end.

Lemma fire_fresh (h : nat) (random : Q) (st : ui) :
  freshHandles st -> freshHandles (fire h random st).
Proof.
  intros [Ht Hp]. unfold fire, progressTick.
  repeat case_match; try (split; assumption); split; cbn; intros k Hk;
    handles; auto.
Qed.

Lemma stopProgress_fresh (st : ui) :
  freshHandles st -> freshHandles (stopProgress st).
Proof.
  intros [Ht Hp]. unfold stopProgress, clearInterval.
  destruct (progressInterval (app st)) as [h|] eqn:E; split; cbn;
    intros k Hk; handles; try lia.
  - specialize (Ht _ Hk). lia.
  - rewrite E in Hk. specialize (Hp _ Hk). lia.
  - specialize (Ht _ Hk). lia.
  - rewrite E in Hk. discriminate.
Qed.

Lemma step_fresh (st : ui) (ev : event) :
  freshHandles st -> freshHandles (step st ev).
Proof.
  intros Hfresh. pose proof Hfresh as [Ht Hp].
  destruct ev as [id| |s|i s| |h r|o]; cbn [step].
  - destruct (openAgent_keeps_scheduler id st) as [Hs Hi].
    split; rewrite Hs; [exact Ht|]. rewrite Hi. exact Hp.
  - split; cbn; intros k Hk; handles; try lia.
    + specialize (Ht _ Hk). lia.
    + specialize (Hp _ Hk). lia.
  - exact Hfresh.
  - exact Hfresh.
  - destruct (submitDisabled (form st)); [exact Hfresh|].
    destruct (onSubmitClick_cases st) as [-> |[-> |[-> | ->]]];
      try exact Hfresh.
    split; cbn; intros k Hk; handles; try lia.
    + specialize (Ht _ Hk). lia.
    + injection Hk as <-. lia.
  - now apply fire_fresh.
  - destruct (inFlight (sched st)) as [|n] eqn:E; [exact Hfresh|].
    unfold onSettled.
    destruct (tryBody_keeps_state o (setInFlight n st)) as [Ha Hs].
    destruct (tryBody o (setInFlight n st)) as [st1 c]. cbn [fst] in Ha, Hs.
    apply stopProgress_fresh. split.
    + destruct c; cbn; rewrite Hs; exact Ht.
    + destruct c; cbn; rewrite Ha, Hs; exact Hp.
Qed.

Lemma run_fresh (evs : list event) (st : ui) :
  freshHandles st -> freshHandles (run evs st).
Proof.
  revert st. induction evs as [|ev evs IH]; intros st H; [exact H|].
  apply IH. now apply step_fresh.
Qed.

(** X15. Along every run of the page a running timer, and the handle
    [state.progressInterval] remembers, carry a handle the window has
    already handed out; so the handle of the next [setInterval] or
    [setTimeout] is that of no running timer, and starting a timer never
    replaces one. *)
Theorem handles_are_fresh (agents : list value) (evs : list event) (h : nat) :
  running h (run evs (loaded agents)) = true
  \/ progressInterval (app (run evs (loaded agents))) = Some h ->
  (h < nextHandle (sched (run evs (loaded agents))))%nat
  /\ running (nextHandle (sched (run evs (loaded agents))))
             (run evs (loaded agents)) = false.
Proof.
  set (st := run evs (loaded agents)).
  assert (H : freshHandles st).
  { apply run_fresh. split; cbn; intros k Hk; [|discriminate].
    rewrite lookup_empty in Hk. now destruct Hk. }
  intros Hh. split.
  - destruct Hh as [Hh|Hh]; [|now apply (proj2 H)].
    apply (proj1 H). now apply bool_decide_eq_true in Hh.
  - unfold running. apply bool_decide_eq_false_2.
    intros Hs. apply (proj1 H) in Hs. lia.
Qed.

Lemma handles_are_fresh_witness :
  (1 < nextHandle (sched submitted))%nat
  /\ running (nextHandle (sched submitted)) submitted = false.
Proof.
  apply (handles_are_fresh [presentationAgent]
           [Open (lit "presentation_gen"); TypeTopic (lit "AI in 2026"); Click]
           1).
  left. reflexivity.
Defined.

Lemma step_busy (st : ui) (ev : event) :
  busyOnlyInFlight st -> busyOnlyInFlight (step st ev).
Proof.
  unfold busyOnlyInFlight. intros Hb.
  destruct ev as [id| |s|i s| |h r|o]; cbn [step]; try exact Hb.
  - destruct (openAgent_keeps_scheduler id st) as [Hs _]. rewrite Hs.
    unfold openAgent. repeat case_match; cbn; try exact Hb; discriminate.
  - destruct (submitDisabled (form st)) eqn:E; [now rewrite E|].
    unfold onSubmitClick.
    destruct (truthy (currentAgent (app st))) eqn:Ha; cbn [negb fst];
      [|now rewrite E].
    destruct (negb (truthy (JString (trim (topicValue (form st)))))).
    + cbn. now rewrite E.
    + cbn [setSubmit with_form app].
      destruct (getNamed_truthy _ (lit "id") Ha) as [x Hx]. rewrite Hx.
      cbn. discriminate.
  - unfold fire, progressTick, clearInterval.
    repeat case_match; cbn; exact Hb.
  - destruct (inFlight (sched st)) as [|n] eqn:E; [now rewrite E|].
    unfold onSettled. destruct (tryBody o (setInFlight n st)) as [st1 c].
    rewrite (proj2 (stopProgress_keeps_result _)). destruct c; discriminate.
Qed.

Lemma run_busy (evs : list event) (st : ui) :
  busyOnlyInFlight st -> busyOnlyInFlight (run evs st).
Proof.
  revert st. induction evs as [|ev evs IH]; intros st H; [exact H|].
  apply IH. now apply step_busy.
Qed.

(** X16. Along every run of the page the submit button is disabled only
    while a request is in flight: no sequence of clicks, responses,
    timers and modal openings leaves the button stuck. *)
Theorem button_disabled_only_in_flight (agents : list value)
    (evs : list event) :
  submitDisabled (form (run evs (loaded agents))) = true ->
  inFlight (sched (run evs (loaded agents))) <> 0%nat.
Proof.
  apply (run_busy evs (loaded agents)). intros H. discriminate H.
Qed.

Lemma button_disabled_only_in_flight_witness :
  inFlight (sched submitted) <> 0%nat.
Proof.
  apply (button_disabled_only_in_flight [presentationAgent]
           [Open (lit "presentation_gen"); TypeTopic (lit "AI in 2026"); Click]).
  reflexivity.
Defined.

Lemma unit_draw (r : Q) :
  Qle_bool 0 r && negb (Qle_bool 1 r) = true -> (0 <= r /\ r < 1)%Q.
Proof.
  intros [H0 H1%negb_true_iff]%andb_prop. split.
  - now apply Qle_bool_iff.
  - apply Qnot_le_lt. intros H. apply Qle_bool_iff in H. congruence.
Qed.

Lemma step_widths (st : ui) (ev : event) :
  unitDraws [ev] = true -> widthsInRange st -> widthsInRange (step st ev).
Proof.
  intros Hev [Hw Hb].
  destruct ev as [id| |s|i s| |h r|o]; cbn [step].
  - destruct (openAgent_keeps_scheduler id st) as [Hs _].
    split; [rewrite Hs; exact Hw|].
    unfold openAgent. repeat case_match; exact Hb.
  - split; [|exact Hb]. cbn. intros k w Hk.
    apply lookup_insert_Some in Hk as [[_ [=]]|[_ Hk]]. eauto.
  - split; assumption.
  - split; assumption.
  - destruct (submitDisabled (form st)); [split; assumption|].
    destruct (onSubmitClick_cases st) as [-> |[-> |[-> | ->]]];
      try (split; assumption).
    split; cbn.
    + intros k w Hk. apply lookup_insert_Some in Hk as [[_ [= <-]]|[_ Hk]];
        [lra|eauto].
    + lra.
  - cbn in Hev. rewrite andb_true_r in Hev. apply unit_draw in Hev.
    unfold fire. destruct (timers (sched st) !! h) as [[w| |]|] eqn:E;
      try (split; [|exact Hb]; cbn; intros k w' Hk;
           apply lookup_delete_Some in Hk as [_ Hk]; eauto);
      [|split; assumption].
    pose proof (Hw _ _ E) as Hcur. unfold progressTick.
    assert (Hbar : (0 <= Qmin (w + r * 10) 90
                    /\ Qmin (w + r * 10) 90 <= 100)%Q).
    { destruct (Q.min_spec (w + r * 10) 90) as [[? ->]|[? ->]]; lra. }
    destruct (Qle_bool 90 w) eqn:E90.
    + split; [|exact Hbar]. cbn. intros k w' Hk.
      apply lookup_alter_Some in Hk as [(-> & t & Hk & _)|[_ Hk]].
      * rewrite lookup_delete_eq in Hk. discriminate.
      * apply lookup_delete_Some in Hk as [_ Hk]. eauto.
    + assert (H90 : (w < 90)%Q).
      { apply Qnot_le_lt. intros H. apply Qle_bool_iff in H. congruence. }
      split; [|exact Hbar]. cbn. intros k w' Hk.
      apply lookup_alter_Some in Hk as [(-> & t & Hk & [= ->])|[_ Hk]];
        [lra|eauto].
  - destruct (inFlight (sched st)) as [|n]; [split; assumption|].
    unfold onSettled.
    destruct (tryBody_keeps_state o (setInFlight n st)) as [_ Hs].
    destruct (tryBody o (setInFlight n st)) as [st1 c]. cbn [fst] in Hs.
    assert (Hst1 : forall k w, timers (sched st1) !! k = Some (ProgressTick w)
                     -> (0 <= w /\ w < 100)%Q) by (rewrite Hs; exact Hw).
    unfold stopProgress, clearInterval. split.
    + destruct c; destruct (progressInterval _); cbn; intros k w Hk;
        apply lookup_insert_Some in Hk as [[_ [=]]|[_ Hk]];
        try apply lookup_delete_Some in Hk as [_ Hk]; eauto.
    + destruct c; destruct (progressInterval _); cbn; lra.
Qed.

Lemma run_widths (evs : list event) (st : ui) :
  unitDraws evs = true -> widthsInRange st -> widthsInRange (run evs st).
Proof.
  revert st. induction evs as [|ev evs IH]; intros st Hd H; [exact H|].
  cbn in Hd. apply andb_prop in Hd as [Hev Hd].
  apply IH; [exact Hd|]. apply step_widths; [|exact H].
  cbn. now rewrite Hev.
Qed.

(** X17. As long as [Math.random] draws from the interval from 0 to 1,
    along every run of the page the bar shows between 0 and 100 percent
    and every running simulator holds a width from 0 up to, but not
    including, 100. *)
Theorem widths_stay_in_range (agents : list value) (evs : list event) :
  unitDraws evs = true ->
  widthsInRange (run evs (loaded agents)).
Proof.
  intros Hd. apply run_widths; [exact Hd|]. split; cbn.
  - intros h w Hh. rewrite lookup_empty in Hh. discriminate.
  - lra.
Qed.

Lemma widths_stay_in_range_witness :
  widthsInRange
    (run [Open (lit "presentation_gen"); TypeTopic (lit "AI in 2026"); Click;
          Fire 1 (99 # 100); Fire 1 (1 # 2); Close;
          Settle (Rejected (Failure (lit "Failed to fetch")))]
         (loaded [presentationAgent])).
Proof.
  apply (widths_stay_in_range [presentationAgent]
           [Open (lit "presentation_gen"); TypeTopic (lit "AI in 2026"); Click;
            Fire 1 (99 # 100); Fire 1 (1 # 2); Close;
            Settle (Rejected (Failure (lit "Failed to fetch")))]).
  reflexivity.
Defined.

Lemma openAgent_with_unprintable_name_witness :
  openAgent (lit "seven") (loaded [presentationAgent; numberedAgent])
  = (setCurrentAgent numberedAgent (loaded [presentationAgent; numberedAgent]),
     Throw (TypeError (JNumber (ofZ 7))))
  /\ form (fst (openAgent (lit "seven")
                  (loaded [presentationAgent; numberedAgent])))
     = form (loaded [presentationAgent; numberedAgent])
  /\ modalActive (fst (openAgent (lit "seven")
                         (loaded [presentationAgent; numberedAgent])))
     = modalActive (loaded [presentationAgent; numberedAgent]).
Proof.
  apply (openAgent_with_unprintable_name (lit "seven")
           (loaded [presentationAgent; numberedAgent])
           [presentationAgent] [] numberedAgent (JNumber (ofZ 7))
           (TypeError (JNumber (ofZ 7)))).
  - reflexivity.
  - repeat constructor. exists (str "presentation_gen"). split; reflexivity.
  - reflexivity.
  - reflexivity.
  - reflexivity.
Defined.

(** ** The download link *)

(** X19. When [renderResult] completes, the download link is visible
    exactly when the resolver found a non-empty path in the result, and
    it then leads to [/files/] followed by the name of that path; when
    nothing was found the link is hidden and keeps the address it had. *)
Theorem download_link_visible_iff (found : value) (st : ui) :
  snd (renderResult found st) = Normal tt ->
  let page := result (fst (renderResult found st)) in
  areaShown page = true
  /\ (downloadShown page = true <->
      exists path, path <> [] /\ findOutputFile found = Normal (JString path))
  /\ (forall path, findOutputFile found = Normal (JString path) -> path <> [] ->
        href page = fileUrl (fileName path) /\ download page = fileName path)
  /\ (downloadShown page = false ->
        href page = href (result st) /\ download page = download (result st)).
Proof.
  unfold renderResult.
  destruct (getNamed found (lit "pdf")) as [pdf|e]; [|discriminate].
  destruct (findOutputFile found) as [file|e] eqn:Hf; [|discriminate].
  destruct (truthy file) eqn:Ht.
  - destruct file as [ | | b | n | path | elems | props ]; try discriminate.
    intros _. cbn. cbn in Ht. apply negb_true_iff, bool_decide_eq_false in Ht.
    split; [reflexivity|]. split; [|split].
    + split; [|reflexivity]. intros _. now exists path.
    + intros p [= <-] _. split; reflexivity.
    + discriminate.
  - intros _. cbn. split; [reflexivity|]. split; [|split].
    + split; [discriminate|]. intros (path & Hne & [= ->]). cbn in Ht.
      apply negb_false_iff, bool_decide_eq_true in Ht. contradiction.
    + intros p [= ->] Hne. cbn in Ht.
      apply negb_false_iff, bool_decide_eq_true in Ht. contradiction.
    + intros _. split; reflexivity.
Qed.

Lemma download_link_visible_iff_witness :
  let page := result (fst (renderResult plainResult submitted)) in
  areaShown page = true
  /\ (downloadShown page = true <->
      exists path, path <> []
                   /\ findOutputFile plainResult = Normal (JString path))
  /\ (forall path, findOutputFile plainResult = Normal (JString path) ->
        path <> [] ->
        href page = fileUrl (fileName path) /\ download page = fileName path)
  /\ (downloadShown page = false ->
        href page = href (result submitted)
        /\ download page = download (result submitted)).
Proof.
  apply (download_link_visible_iff plainResult submitted). reflexivity.
Defined.

(** ** Routing *)

Lemma activate_none (id : jsstring) (vs : list view) :
  activate id vs = None <-> id ∉ view_id <$> vs.
Proof.
  induction vs as [|v vs IH]; cbn [activate fmap list_fmap].
  - split; [intros _; apply not_elem_of_nil|reflexivity].
  - case_bool_decide as Hv.
    + split; [discriminate|]. intros Hn. exfalso. apply Hn. subst. left.
    + rewrite not_elem_of_cons. destruct (activate id vs); cbn.
      * split; [discriminate|]. intros [_ Hn]. now apply IH in Hn.
      * split; [|reflexivity]. intros _. split; [congruence|]. now apply IH.
Qed.

Lemma activate_one (id : jsstring) (vs shown : list view) :
  Forall (fun v => view_active v = false) vs ->
  NoDup (view_id <$> vs) ->
  activate id vs = Some shown ->
  view_id <$> shown = view_id <$> vs
  /\ forall v, v ∈ shown -> (view_active v = true <-> view_id v = id).
Proof.
  revert shown. induction vs as [|a vs IH]; intros shown Hoff Hnd;
    [discriminate|].
  apply Forall_cons in Hoff as [Ha Hoff].
  cbn [fmap list_fmap] in Hnd. apply NoDup_cons in Hnd as [Hfirst Hnd].
  cbn [activate]. case_bool_decide as Hid.
  - intros [= <-]. split; [reflexivity|]. intros v Hv.
    apply elem_of_cons in Hv as [->|Hv]; [cbn; tauto|].
    rewrite Forall_forall in Hoff. rewrite (Hoff _ Hv).
    split; [discriminate|]. intros E. exfalso. apply Hfirst.
    rewrite Hid, <- E. now apply list_elem_of_fmap_2.
  - destruct (activate id vs) as [rest|] eqn:E; [|discriminate].
    intros [= <-]. destruct (IH rest Hoff Hnd eq_refl) as [Hids Hact].
    split; [cbn; now rewrite Hids|]. intros v Hv.
    apply elem_of_cons in Hv as [->|Hv]; [|now apply Hact].
    rewrite Ha. split; [discriminate|congruence].
Qed.

(** X20. On a page whose views have distinct ids and include [view-home],
    routing leaves exactly one view active: the view named by the hash
    when there is one, the home view otherwise (also for the empty hash).
    It throws only on the agents page, and there exactly when
    [state.agents] is [null] or [undefined] (the views are switched all
    the same); otherwise it completes, and it asks for the agents only on
    the agents page. *)
Theorem routing_shows_one_view (locationHash : jsstring) (stateAgents : value)
    (page : site) :
  NoDup (view_id <$> views page) ->
  lit "view-home" ∈ view_id <$> views page ->
  exists page' outcome,
    handleRouting locationHash stateAgents page = (page', outcome)
    /\ view_id <$> views page' = view_id <$> views page
    /\ (forall v, v ∈ views page' ->
          (view_active v = true <-> view_id v = routedView locationHash page))
    /\ routedView locationHash page ∈ view_id <$> views page'
    /\ ((exists e, outcome = Throw e)
        <-> routePage locationHash = lit "agents"
            /\ (stateAgents = JUndefined \/ stateAgents = JNull))
    /\ (outcome = Normal true -> routePage locationHash = lit "agents").
Proof.
  intros Hnd Hhome. unfold handleRouting, routedView.
  set (hash := routeHash locationHash).
  set (pageId := routePage locationHash).
  set (hidden := List.map deactivate (views page)).
  assert (Hids : view_id <$> hidden = view_id <$> views page).
  { subst hidden. clear. induction (views page) as [|v vs IH]; [reflexivity|].
    cbn. now rewrite <- IH. }
  assert (Hoff : Forall (fun v => view_active v = false) hidden).
  { subst hidden. apply Forall_forall. intros v Hv.
    apply list_elem_of_In, List.in_map_iff in Hv as (u & <- & _). reflexivity. }
  assert (Hnd' : NoDup (view_id <$> hidden)) by now rewrite Hids.
  set (outcome := if bool_decide (pageId = lit "agents")
                  then len ← getLength stateAgents; Normal (isZero len)
                  else Normal false).
  assert (Hout : ((exists e, outcome = Throw e)
                  <-> pageId = lit "agents"
                      /\ (stateAgents = JUndefined \/ stateAgents = JNull))
                 /\ (outcome = Normal true -> pageId = lit "agents")).
  { subst outcome. case_bool_decide as Hp.
    - split; [|intros _; exact Hp]. split.
      + intros [e He]. split; [exact Hp|].
        destruct stateAgents; try discriminate He; auto.
      + intros [_ [-> | ->]]; eexists; reflexivity.
    - split; [|discriminate]. split; [intros [e He]; discriminate|].
      intros [Hc _]. contradiction. }
  destruct (activate (lit "view-" ++ pageId) hidden) as [shown|] eqn:E.
  - destruct (activate_one _ _ _ Hoff Hnd' E) as [Hshown Hact].
    assert (Hin : lit "view-" ++ pageId ∈ view_id <$> views page).
    { rewrite <- Hids. destruct (decide (lit "view-" ++ pageId
                                          ∈ view_id <$> hidden)) as [H|H];
        [exact H|]. apply activate_none in H. congruence. }
    rewrite (bool_decide_eq_true_2 _ Hin).
    exists {| views := shown; links := markLinks hash (links page) |}, outcome.
    split; [reflexivity|]. cbn [views].
    split; [now rewrite Hshown|]. split; [exact Hact|].
    split; [now rewrite Hshown, Hids|exact Hout].
  - assert (Hno : lit "view-" ++ pageId ∉ view_id <$> views page).
    { rewrite <- Hids. now apply activate_none. }
    rewrite (bool_decide_eq_false_2 _ Hno).
    destruct (activate (lit "view-home") hidden) as [shown|] eqn:E'.
    + destruct (activate_one _ _ _ Hoff Hnd' E') as [Hshown Hact].
      exists {| views := shown; links := markLinks hash (links page) |}, outcome.
      split; [reflexivity|]. cbn [views].
      split; [now rewrite Hshown|]. split; [exact Hact|].
      split; [now rewrite Hshown, Hids|exact Hout].
    + apply activate_none in E'. rewrite Hids in E'. contradiction.
Qed.

Lemma routing_shows_one_view_witness :
  exists page' outcome,
    handleRouting (lit "#agents") JUndefined dashboard = (page', outcome)
    /\ view_id <$> views page' = view_id <$> views dashboard
    /\ (forall v, v ∈ views page' ->
          (view_active v = true
           <-> view_id v = routedView (lit "#agents") dashboard))
    /\ routedView (lit "#agents") dashboard ∈ view_id <$> views page'
    /\ ((exists e, outcome = Throw e)
        <-> routePage (lit "#agents") = lit "agents"
            /\ (JUndefined = JUndefined \/ JUndefined = JNull))
    /\ (outcome = Normal true -> routePage (lit "#agents") = lit "agents").
Proof.
  apply (routing_shows_one_view (lit "#agents") JUndefined dashboard).
  - vm_compute. repeat constructor; set_solver.
  - vm_compute. set_solver.
Defined.

Example routing_examples :
  fst (handleRouting (lit "#agents") (JArray []) dashboard)
  = {| views := [ {| view_id := lit "view-home"; view_active := false |};
                  {| view_id := lit "view-agents"; view_active := true |};
                  {| view_id := lit "view-about"; view_active := false |} ];
       links := [ {| link_href := Some (lit "#home"); link_active := false |};
                  {| link_href := Some (lit "#agents"); link_active := true |};
                  {| link_href := Some (lit "#about"); link_active := false |} ] |}
  /\ snd (handleRouting (lit "#agents") (JArray []) dashboard) = Normal true
  /\ snd (handleRouting (lit "#agents") (JArray [presentationAgent]) dashboard)
     = Normal false
  /\ snd (handleRouting (lit "#agents") JUndefined dashboard)
     = Throw (TypeError JUndefined)
  /\ snd (handleRouting (lit "#about") JUndefined dashboard) = Normal false
  /\ routedView [] dashboard = lit "view-home"
  /\ routedView (lit "#nowhere") dashboard = lit "view-home".
Proof. vm_compute. repeat split. Qed.

(** ** The bar after the call has ended *)

Lemma quiet_step_only (h : option nat) (st : ui) (ev : event) :
  quiet ev = true -> onlySimulator h st -> onlySimulator h (step st ev).
Proof.
  unfold onlySimulator. intros Hq Ho.
  destruct ev as [id| |s|i s| |h' r|o]; try discriminate; cbn [step];
    try exact Ho.
  - destruct (openAgent_keeps_scheduler id st) as [-> _]. exact Ho.
  - cbn. intros k w Hk.
    apply lookup_insert_Some in Hk as [[_ [=]]|[_ Hk]]. eauto.
  - unfold fire. destruct (timers (sched st) !! h') as [[w'| |]|] eqn:E;
      try exact Ho;
      try (cbn; intros k w Hk; apply lookup_delete_Some in Hk as [_ Hk];
           eauto).
    unfold progressTick. destruct (Qle_bool 90 w'); cbn; intros k w Hk.
    + apply lookup_alter_Some in Hk as [(-> & t & Hk & _)|[_ Hk]].
      * rewrite lookup_delete_eq in Hk. discriminate.
      * apply lookup_delete_Some in Hk as [_ Hk]. eauto.
    + apply lookup_alter_Some in Hk as [(-> & t & Hk & _)|[_ Hk]]; eauto.
Qed.

Lemma quiet_step_bar (st : ui) (ev : event) :
  quiet ev = true -> onlySimulator None st ->
  barWidth (progress (step st ev)) = barWidth (progress st).
Proof.
  unfold onlySimulator. intros Hq Ho.
  destruct ev as [id| |s|i s| |h' r|o]; try discriminate; cbn [step];
    try reflexivity.
  - unfold openAgent. repeat case_match; reflexivity.
  - unfold fire. destruct (timers (sched st) !! h') as [[w'| |]|] eqn:E;
      try reflexivity.
    specialize (Ho _ _ E). discriminate.
Qed.

Lemma quiet_run_bar (evs : list event) (st : ui) :
  forallb quiet evs = true -> onlySimulator None st ->
  barWidth (progress (run evs st)) = barWidth (progress st)
  /\ onlySimulator None (run evs st).
Proof.
  revert st. induction evs as [|ev evs IH]; intros st Hq Ho; [now split|].
  cbn in Hq. apply andb_prop in Hq as [Hev Hq].
  cbn [run fold_left]. fold (run evs (step st ev)).
  destruct (IH (step st ev) Hq (quiet_step_only _ _ _ Hev Ho)) as [Hb Hn].
  split; [|exact Hn]. rewrite Hb. now apply quiet_step_bar.
Qed.

Lemma quiet_run_only (h : option nat) (evs : list event) (st : ui) :
  forallb quiet evs = true -> onlySimulator h st ->
  onlySimulator h (run evs st).
Proof.
  revert st. induction evs as [|ev evs IH]; intros st Hq Ho; [exact Ho|].
  cbn in Hq. apply andb_prop in Hq as [Hev Hq].
  apply IH; [exact Hq|]. now apply quiet_step_only.
Qed.

Lemma onSettled_no_simulator (h : nat) (o : outcome) (st : ui) :
  armed h st -> onlySimulator (Some h) st ->
  barWidth (progress (step st (Settle o))) = 100%Q
  /\ onlySimulator None (step st (Settle o)).
Proof.
  intros (Hp & Hh & Hf) Ho. cbn [step].
  destruct (inFlight (sched st)) as [|n]; [contradiction|].
  unfold onSettled.
  destruct (tryBody_keeps_state o (setInFlight n st)) as [Ha Hs].
  destruct (tryBody o (setInFlight n st)) as [st1 c]. cbn [fst] in Ha, Hs.
  assert (Hp1 : forall st2, app st2 = app st1 -> sched st2 = sched st1 ->
            barWidth (progress (stopProgress st2)) = 100%Q
            /\ onlySimulator None (stopProgress st2)).
  { intros st2 Ha2 Hs2. unfold stopProgress, onlySimulator.
    rewrite Ha2, Ha. cbn [app setInFlight with_sched]. rewrite Hp.
    split; [reflexivity|]. cbn. rewrite Hs2, Hs. cbn. intros k w Hk.
    apply lookup_insert_Some in Hk as [[_ [=]]|[_ Hk]].
    apply lookup_delete_Some in Hk as [Hne Hk].
    specialize (Ho _ _ Hk). congruence. }
  destruct c; apply Hp1; reflexivity.
Qed.

(** X21. With one request at a time the bar ends at 100 percent and stays
    there: from a page on which no simulator is running, a submission
    followed by any events short of another submission (ticks, closing
    and opening the modal, edits), the end of the call, and again any
    such events, leaves the bar at 100 and no simulator running. *)
Theorem bar_stays_complete (st : ui) (req : request)
    (before after : list event) (o : outcome) :
  onlySimulator None st ->
  snd (onSubmitClick st) = Some req ->
  forallb quiet before = true ->
  forallb quiet after = true ->
  barWidth (progress (run (before ++ Settle o :: after)
                          (fst (onSubmitClick st)))) = 100%Q
  /\ onlySimulator None (run (before ++ Settle o :: after)
                             (fst (onSubmitClick st))).
Proof.
  intros Hnone Hreq Hb Ha.
  set (h := nextHandle (sched st)).
  assert (Hst1 : fst (onSubmitClick st) =
            let st0 := startProgress (setSubmit true Processing st) in
            setInFlight (S (inFlight (sched st0))) st0).
  { revert Hreq. unfold onSubmitClick.
    repeat case_match; cbn [snd fst]; try discriminate. reflexivity. }
  assert (Harmed : armed h (fst (onSubmitClick st))).
  { rewrite Hst1. unfold armed. cbn. repeat split; [lia|discriminate]. }
  assert (Honly : onlySimulator (Some h) (fst (onSubmitClick st))).
  { rewrite Hst1. unfold onlySimulator. cbn. intros k w Hk.
    apply lookup_insert_Some in Hk as [[<- _]|[_ Hk]]; [reflexivity|].
    specialize (Hnone _ _ Hk). discriminate. }
  unfold run. rewrite fold_left_app. cbn [fold_left].
  fold (run before (fst (onSubmitClick st))).
  pose proof (quiet_run_armed h before _ Hb Harmed) as Harmed'.
  pose proof (quiet_run_only (Some h) before _ Hb Honly) as Honly'.
  destruct (onSettled_no_simulator h o _ Harmed' Honly') as [Hbar Hnone'].
  match goal with
  | |- context [fold_left step after ?s] => fold (run after s)
  end.
  destruct (quiet_run_bar after _ Ha Hnone') as [Hsame Hfinal].
  split; [now rewrite Hsame|exact Hfinal].
Qed.

Lemma bar_stays_complete_witness :
  barWidth (progress
    (run ([Fire 1 (1 # 2); Close]
            ++ Settle (Rejected (Failure (lit "Failed to fetch")))
               :: [Fire 2 0; Fire 1 (1 # 2); Open (lit "presentation_gen")])
         (fst (onSubmitClick readyToSubmit)))) = 100%Q
  /\ onlySimulator None
       (run ([Fire 1 (1 # 2); Close]
               ++ Settle (Rejected (Failure (lit "Failed to fetch")))
                  :: [Fire 2 0; Fire 1 (1 # 2); Open (lit "presentation_gen")])
            (fst (onSubmitClick readyToSubmit))).
Proof.
  apply (bar_stays_complete readyToSubmit
           {| req_agent := str "presentation_gen";
              req_topic := lit "AI in 2026";
              req_options := {[ lit "num_slides" := JNumber (ofZ 5) ]} |}
           [Fire 1 (1 # 2); Close]
           [Fire 2 0; Fire 1 (1 # 2); Open (lit "presentation_gen")]
           (Rejected (Failure (lit "Failed to fetch")))).
  - intros k w Hk. vm_compute in Hk. discriminate Hk.
  - vm_compute. reflexivity.
  - reflexivity.
  - reflexivity.
Defined.
